(** * PhabPrint: sprint filter, task formatter and print dispatcher

    A shallow embedding of [src/services/phabricator.js],
    [src/services/printer.js], the [filters] of [src/config/index.js] and
    the poll cycle of [src/index.js].

    Conventions of the embedding.
    - A JavaScript string is a [string] of 8-bit code units, that is, a
      string whose code units are below 256; case conversion acts on
      them as the language does (the ASCII letters and the accented
      letters of the Latin-1 block).
    - A number that holds a task id is an integer; its decimal rendering
      is the language's for safe integers ([Js.isSafeInteger]).
    - [undefined] and [null] are [None]; an optional chain [a?.b] is a
      match on an option.
    - A JavaScript object used as an ordered collection ([boards]) is the
      list of its values in [Object.values] order.
    - Effects of the printer service are threaded through an explicit
      state; the outside world (printer device, file system) answers
      through an oracle indexed by the number of calls made so far. *)

From Stdlib Require Import List String Ascii ZArith Lia Bool Arith.
From Stdlib Require Import DecimalString Decimal DecimalPos DecimalZ.
Import ListNotations.
Open Scope list_scope.
Open Scope string_scope.

(* ================================================================== *)
(** ** JavaScript string primitives used by the sources *)

Module Js.

(** [Array.prototype.join]. *)
Definition join (sep : string) (xs : list string) : string :=
  String.concat sep xs.

(** Remainder of [s] after its first [n] code units. *)
Fixpoint drop (n : nat) (s : string) : string :=
  match n, s with
  | O, _ => s
  | S _, EmptyString => EmptyString
  | S n', String _ s' => drop n' s'
  end.

(** [String.prototype.replace] with a string pattern: only the first
    occurrence is replaced. *)
Fixpoint replace (pat rep s : string) : string :=
  if String.prefix pat s then rep ++ drop (String.length pat) s
  else match s with
       | EmptyString => EmptyString
       | String c s' => String c (replace pat rep s')
       end.

(** [String.prototype.substring(0, n)]. *)
Definition substring0 (n : nat) (s : string) : string :=
  String.substring 0 n s.

(** Upper case of a code unit, as the [i] flag of a regular expression
    takes it: [a]-[z] and the Latin-1 letters [0xE0]-[0xF6],
    [0xF8]-[0xFE] move down by 32.  The three code units whose upper
    case is not a single code unit below 256 ([0xB5], [0xDF], [0xFF])
    stay: among code units below 256 each of them is equal, letter case
    aside, to itself only. *)
Definition toUpperCase (c : ascii) : ascii :=
  let n := nat_of_ascii c in
  if ((Nat.leb 97 n && Nat.leb n 122)
      || (Nat.leb 224 n && Nat.leb n 246)
      || (Nat.leb 248 n && Nat.leb n 254))%bool
  then ascii_of_nat (n - 32) else c.

(** [Number.isSafeInteger]: the integers every one of which a number
    holds exactly; [Number.prototype.toString] writes them as plain
    decimal digits. *)
Definition isSafeInteger (n : Z) : bool :=
  (Z.abs n <=? 9007199254740991)%Z.

(** [Number.prototype.toString] on an integer value: its decimal digits.
    This is the language's rendering on safe integers; from [1e21] on
    the language switches to exponent form, which is not modelled. *)
Definition numberToString (n : Z) : string :=
  NilZero.string_of_int (Z.to_int n).

(** Reading a decimal integer back; used to state round trips. *)
Definition parseInteger (s : string) : option Z :=
  option_map Z.of_int (NilZero.int_of_string s).

(** A dynamically typed scalar, as [fields.points] may carry. *)
Inductive Scalar :=
| Number (n : Z)
| Str (s : string).

(** Template-literal interpolation of a scalar. *)
Definition scalarToString (v : Scalar) : string :=
  match v with
  | Number n => numberToString n
  | Str s => s
  end.

End Js.

(* ================================================================== *)
(** ** The regular-expression engine

    [filterSprintTasks] builds [new RegExp(keywords.join('|'), 'i')].
    The engine is an interface; [Fragment] implements it for patterns made
    of literal characters, [.] and [|]. *)

Record RegExpEngine := {
  regex : Type;
  (** [new RegExp(pattern, 'i')]; [None] when the constructor throws. *)
  RegExp_new : string -> option regex;
  (** [RegExp.prototype.test]. *)
  RegExp_test : regex -> string -> bool
}.

Module Fragment.

Inductive Atom :=
| PatternCharacter (c : ascii)
| Dot.

Definition Alternative := list Atom.
Definition Disjunction := list Alternative.

(** ECMAScript [SyntaxCharacter]: one of [^ $ \ . * + ? ( ) [ ] { } |]. *)
Definition isSyntaxCharacter (c : ascii) : bool :=
  existsb (Ascii.eqb c)
    ["^"; "$"; "\"; "."; "*"; "+"; "?"; "("; ")"; "["; "]"; "{"; "}"; "|"]%char.

Definition consHead (a : Atom) (d : Disjunction) : Disjunction :=
  match d with
  | [] => [[a]]
  | alt :: rest => (a :: alt) :: rest
  end.

(** Pattern ::= Alternative ( '|' Alternative )*, an Alternative being a
    possibly empty run of literal characters and dots.  Any other syntax
    character puts the pattern outside the fragment ([None]). *)
Fixpoint parse (p : string) : option Disjunction :=
  match p with
  | EmptyString => Some [[]]
  | String c p' =>
      match parse p' with
      | None => None
      | Some d =>
          if Ascii.eqb c "|" then Some ([] :: d)
          else if Ascii.eqb c "." then Some (consHead Dot d)
          else if isSyntaxCharacter c then None
          else Some (consHead (PatternCharacter c) d)
      end
  end.

(** [Canonicalize] under the [i] flag (no [u] flag): the character's
    upper case when that is a single code unit. *)
Definition canonicalize (c : ascii) : ascii := Js.toUpperCase c.

Definition isLineTerminator (c : ascii) : bool :=
  Ascii.eqb c "010" || Ascii.eqb c "013".

Definition atomMatches (a : Atom) (c : ascii) : bool :=
  match a with
  | PatternCharacter p => Ascii.eqb (canonicalize p) (canonicalize c)
  | Dot => negb (isLineTerminator c)
  end.

(** Does the alternative match a prefix of [s]? *)
Fixpoint matchAlternative (alt : Alternative) (s : string) : bool :=
  match alt with
  | [] => true
  | a :: alt' =>
      match s with
      | EmptyString => false
      | String c s' => atomMatches a c && matchAlternative alt' s'
      end
  end.

Definition matchHere (d : Disjunction) (s : string) : bool :=
  existsb (fun alt => matchAlternative alt s) d.

(** [test]: try every start index from 0 to the length of the input. *)
Fixpoint test (d : Disjunction) (s : string) : bool :=
  matchHere d s ||
  match s with
  | EmptyString => false
  | String _ s' => test d s'
  end.

(** The alternative a keyword free of syntax characters parses to. *)
Definition literal (k : string) : Alternative :=
  map PatternCharacter (list_ascii_of_string k).

(** The engine of the fragment.  [RegExp_new] answers [None] for every
    pattern outside the fragment, also for those the language accepts
    (a group, a quantifier, a class); what is stated of this engine is
    stated of patterns it parses. *)
Definition engine : RegExpEngine :=
  {| regex := Disjunction; RegExp_new := parse; RegExp_test := test |}.

End Fragment.

(* ================================================================== *)
(** ** Raw tasks, as returned by [maniphest.search] *)

Module Column.
Record t := make { name : string }.
End Column.

Module Board.
Record t := make { columns : list Column.t }.
End Board.

Module ColumnsAttachment.
(** [boards] is an object keyed by board PHID; the list holds its values
    in [Object.values] order. *)
Record t := make { boards : option (list Board.t) }.
End ColumnsAttachment.

Module ProjectsAttachment.
Record t := make { projectPHIDs : option (list string) }.
End ProjectsAttachment.

Module Attachments.
Record t := make {
  projects : option ProjectsAttachment.t;
  columns : option ColumnsAttachment.t
}.
End Attachments.

Module Named.
(** [fields.priority] and [fields.status]: objects with a [name]. *)
Record t := make { name : option string }.
End Named.

Module Fields.
Record t := make {
  name : option string;
  priority : option Named.t;
  points : option Js.Scalar;
  status : option Named.t
}.
End Fields.

Module Task.
Record t := make {
  id : Z;
  fields : Fields.t;
  attachments : option Attachments.t
}.
End Task.

(** The record built by [formatTaskForPrint] and consumed by the printer. *)
Module FormattedTask.
Record t := make {
  id : string;
  numericId : Z;
  title : string;
  priority : string;
  points : Js.Scalar;
  status : string;
  projectPhids : list string;
  columns : list string;
  url : string
}.
End FormattedTask.

(* ================================================================== *)
(** ** Records without a schema

    [maniphest.search] answers records of the shape above.  The
    formatter itself takes whatever it is handed: a record may lack its
    [fields], and a board its [columns]; reading a member of the missing
    object throws a [TypeError]. *)

Module LooseBoard.
Record t := make { columns : option (list Column.t) }.
End LooseBoard.

Module LooseColumnsAttachment.
Record t := make { boards : option (list LooseBoard.t) }.
End LooseColumnsAttachment.

Module LooseAttachments.
Record t := make {
  projects : option ProjectsAttachment.t;
  columns : option LooseColumnsAttachment.t
}.
End LooseAttachments.

Module LooseTask.
Record t := make {
  id : Z;
  fields : option Fields.t;
  attachments : option LooseAttachments.t
}.

(** A record of the tracker's shape, seen without its schema. *)
Definition ofBoard (board : Board.t) : LooseBoard.t :=
  LooseBoard.make (Some (Board.columns board)).

Definition ofAttachments (a : Attachments.t) : LooseAttachments.t :=
  LooseAttachments.make (Attachments.projects a)
    (option_map
       (fun c => LooseColumnsAttachment.make
                   (option_map (map ofBoard) (ColumnsAttachment.boards c)))
       (Attachments.columns a)).

Definition ofTask (task : Task.t) : LooseTask.t :=
  make (Task.id task) (Some (Task.fields task))
       (option_map ofAttachments (Task.attachments task)).
End LooseTask.

(* ================================================================== *)
(** ** [PhabricatorService] *)

Module PhabricatorService.

(** [task.attachments?.columns?.boards] *)
Definition columnsData (task : Task.t) : option (list Board.t) :=
  match Task.attachments task with
  | None => None
  | Some a =>
      match Attachments.columns a with
      | None => None
      | Some c => ColumnsAttachment.boards c
      end
  end.

(** [a || b] on an optional string: the empty string is falsy. *)
Definition orElse (a : option string) (b : string) : string :=
  match a with
  | Some s => if String.eqb s "" then b else s
  | None => b
  end.

Section Filter.
Variable E : RegExpEngine.

(** The inner [for .. of] over a board's columns. *)
Fixpoint someColumn (sprintPattern : regex E) (cols : list Column.t) : bool :=
  match cols with
  | [] => false
  | col :: rest =>
      if RegExp_test E sprintPattern (Column.name col) then true
      else someColumn sprintPattern rest
  end.

(** The outer [for .. of] over [Object.values(columnsData)]. *)
Fixpoint someBoard (sprintPattern : regex E) (bs : list Board.t) : bool :=
  match bs with
  | [] => false
  | board :: rest =>
      if someColumn sprintPattern (Board.columns board) then true
      else someBoard sprintPattern rest
  end.

(** The callback given to [tasks.filter]. *)
Definition inSprint (sprintPattern : regex E) (task : Task.t) : bool :=
  match columnsData task with
  | None => false
  | Some bs => someBoard sprintPattern bs
  end.

(** [filterSprintTasks]; [None] when [new RegExp] throws. *)
Definition filterSprintTasks (sprintKeywords : list string)
    (tasks : list Task.t) : option (list Task.t) :=
  match RegExp_new E (Js.join "|" sprintKeywords) with
  | None => None
  | Some sprintPattern => Some (filter (inSprint sprintPattern) tasks)
  end.
End Filter.

(** [board.columns.forEach(col => columns.push(col.name))] *)
Definition pushColumns (columns : list string) (board : Board.t) : list string :=
  fold_left (fun acc col => (acc ++ [Column.name col])%list) (Board.columns board) columns.

(** [formatTaskForPrint], for a service whose [baseUrl] is [baseUrl]. *)
Definition formatTaskForPrint (baseUrl : string) (task : Task.t) : FormattedTask.t :=
  let taskId := "T" ++ Js.numberToString (Task.id task) in
  let title := orElse (Fields.name (Task.fields task)) "Untitled" in
  let priority :=
    orElse (match Fields.priority (Task.fields task) with
            | Some p => Named.name p
            | None => None
            end) "Unknown" in
  let points :=
    match Fields.points (Task.fields task) with
    | Some v => v
    | None => Js.Str "N/A"
    end in
  let status :=
    orElse (match Fields.status (Task.fields task) with
            | Some p => Named.name p
            | None => None
            end) "Unknown" in
  let projectPhids :=
    match Task.attachments task with
    | None => []
    | Some a =>
        match Attachments.projects a with
        | None => []
        | Some p =>
            match ProjectsAttachment.projectPHIDs p with
            | Some l => l
            | None => []
            end
        end
    end in
  let columns :=
    match columnsData task with
    | Some bs => fold_left pushColumns bs []
    | None => []
    end in
  FormattedTask.make taskId (Task.id task) title priority points status
    projectPhids columns
    (Js.replace "/api" "" baseUrl ++ "/" ++ taskId).

(** The boards of a record without schema, when each has its [columns];
    [None] when [board.columns.forEach] meets a board without them. *)
Fixpoint boardsOf (bs : list LooseBoard.t) : option (list Board.t) :=
  match bs with
  | [] => Some []
  | b :: rest =>
      match LooseBoard.columns b, boardsOf rest with
      | Some cols, Some bs' => Some (Board.make cols :: bs')
      | _, _ => None
      end
  end.

(** [task.attachments], with the boards read as [formatTaskForPrint]
    reads them. *)
Definition attachmentsOf (a : option LooseAttachments.t)
    : option (option Attachments.t) :=
  match a with
  | None => Some None
  | Some a =>
      match LooseAttachments.columns a with
      | None => Some (Some (Attachments.make (LooseAttachments.projects a) None))
      | Some c =>
          match LooseColumnsAttachment.boards c with
          | None =>
              Some (Some (Attachments.make (LooseAttachments.projects a)
                            (Some (ColumnsAttachment.make None))))
          | Some bs =>
              match boardsOf bs with
              | Some bs' =>
                  Some (Some (Attachments.make (LooseAttachments.projects a)
                                (Some (ColumnsAttachment.make (Some bs')))))
              | None => None
              end
          end
      end
  end.

(** A call [service.formatTaskForPrint(task)] on a record without schema,
    for a service whose [baseUrl] may be unset ([PHAB_URL] has no default
    and is not validated).  [None] is a thrown [TypeError]:
    [task.fields.name] on a record without [fields],
    [board.columns.forEach] on a board without [columns],
    [this.baseUrl.replace] on an unset base URL.  The function has no
    effect before it throws. *)
Definition formatTaskForPrintCall (baseUrl : option string)
    (task : LooseTask.t) : option FormattedTask.t :=
  match LooseTask.fields task with
  | None => None
  | Some fields =>
      match attachmentsOf (LooseTask.attachments task) with
      | None => None
      | Some attachments =>
          match baseUrl with
          | None => None
          | Some url =>
              Some (formatTaskForPrint url
                      (Task.make (LooseTask.id task) fields attachments))
          end
      end
  end.

End PhabricatorService.

(* ================================================================== *)
(** ** [PrinterService] *)

Module PrinterService.

(** Identity of a JavaScript object held in the [tasks] array:
    [Array.prototype.indexOf] compares elements with [===]. *)
Definition ref := nat.

(** What the printer does when [printTask] reaches it. *)
Inductive Outcome :=
| DeviceUnavailable (msg : string) (* [getDevice] or [new Printer] throws *)
| OpenError (msg : string)         (* [device.open] calls back with [err] *)
| PrintError (msg : string)        (* the command chain throws *)
| Printed.                         (* the chain runs to [close] *)

(** Content of [.printed-tasks.json]. *)
Inductive FileContent :=
| JsonArray (ids : list string)
| Malformed (msg : string).        (* [JSON.parse] or [forEach] throws *)

Inductive Event :=
| ConsoleLog (line : string)
| ConsoleWarn (line : string)
| ConsoleError (line : string)
| Preview (task : FormattedTask.t)            (* the box drawn by [simulatePrint] *)
| PrintInvocation (task : FormattedTask.t) (o : Outcome)
| Sleep (ms : Z).

(** The outside world: the answer to the n-th printer call, and the
    error message, if any, of the n-th file write and file read. *)
Record Env := {
  device : nat -> Outcome;
  writeFileSync : nat -> option string;
  readFileSync : nat -> option string
}.

Record State := mkState {
  dryRun : bool;
  printedTasks : list string;        (* a [Set], in insertion order *)
  cacheFile : option FileContent;    (* [None]: the file does not exist *)
  trace : list Event;
  deviceCalls : nat;
  fileWrites : nat;
  fileReads : nat
}.

(** *** [Set] operations *)

Definition Set_has (x : string) (s : list string) : bool :=
  existsb (String.eqb x) s.

Definition Set_add (x : string) (s : list string) : list string :=
  if Set_has x s then s else (s ++ [x])%list.

Definition Set_delete (x : string) (s : list string) : list string :=
  filter (fun y => negb (String.eqb x y)) s.

(** *** State and rejection monad *)

Inductive Result (A : Type) :=
| Resolved (a : A)
| Rejected (err : string).
Arguments Resolved {A} a.
Arguments Rejected {A} err.

Definition M (A : Type) := State -> Result A * State.

Definition ret {A} (a : A) : M A := fun s => (Resolved a, s).

Definition bind {A B} (m : M A) (k : A -> M B) : M B :=
  fun s =>
    match m s with
    | (Resolved a, s') => k a s'
    | (Rejected err, s') => (Rejected err, s')
    end.

Definition reject {A} (err : string) : M A := fun s => (Rejected err, s).

Notation "x <- m ;; k" := (bind m (fun x => k))
  (at level 61, m at next level, right associativity).
Notation "m ;;; k" := (bind m (fun _ => k))
  (at level 61, right associativity).

Definition emit (e : Event) : M unit :=
  fun s =>
    (Resolved tt,
     mkState (dryRun s) (printedTasks s) (cacheFile s) (trace s ++ [e])%list
             (deviceCalls s) (fileWrites s) (fileReads s)).

Definition setPrintedTasks (p : list string) : M unit :=
  fun s =>
    (Resolved tt,
     mkState (dryRun s) p (cacheFile s) (trace s)
             (deviceCalls s) (fileWrites s) (fileReads s)).

Section WithEnv.
Variable env : Env.

(** [fs.writeFileSync(cacheFile, content)]: the write either replaces
    the file or throws, leaving the file as it was.  A write that throws
    is one refused before the file is touched (no permission, no such
    directory); a write that fails half-way is not modelled. *)
Definition fsWrite (ids : list string) : M unit :=
  fun s =>
    let s' c := mkState (dryRun s) (printedTasks s) c (trace s)
                        (deviceCalls s) (S (fileWrites s)) (fileReads s) in
    match writeFileSync env (fileWrites s) with
    | None => (Resolved tt, s' (Some (JsonArray ids)))
    | Some msg => (Rejected msg, s' (cacheFile s))
    end.

(** [JSON.parse(fs.readFileSync(cacheFile))] followed by the check that
    the value supports [forEach]. *)
Definition fsRead (c : FileContent) : M (list string) :=
  fun s =>
    let s' := mkState (dryRun s) (printedTasks s) (cacheFile s) (trace s)
                      (deviceCalls s) (fileWrites s) (S (fileReads s)) in
    match readFileSync env (fileReads s) with
    | Some msg => (Rejected msg, s')
    | None =>
        match c with
        | JsonArray ids => (Resolved ids, s')
        | Malformed msg => (Rejected msg, s')
        end
    end.

Definition loadPrintedTasks : M unit :=
  fun s =>
    match cacheFile s with
    | None => (Resolved tt, s)
    | Some c =>
        match fsRead c s with
        | (Resolved data, s1) =>
            let p := fold_left (fun acc id => Set_add id acc) data (printedTasks s1) in
            (setPrintedTasks p ;;;
             emit (ConsoleLog ("Loaded " ++ Js.numberToString (Z.of_nat (List.length p))
                               ++ " previously printed tasks"))) s1
        | (Rejected msg, s1) =>
            emit (ConsoleWarn ("Could not load printed tasks cache: " ++ msg)) s1
        end
    end.

Definition savePrintedTasks : M unit :=
  fun s =>
    match fsWrite (printedTasks s) s with
    | (Resolved _, s1) => (Resolved tt, s1)
    | (Rejected msg, s1) =>
        emit (ConsoleWarn ("Could not save printed tasks cache: " ++ msg)) s1
    end.

Definition isAlreadyPrinted (taskId : string) (s : State) : bool :=
  Set_has taskId (printedTasks s).

Definition markPrinted (taskId : string) : M unit :=
  fun s => (setPrintedTasks (Set_add taskId (printedTasks s)) ;;; savePrintedTasks) s.

Definition clearCache : M unit :=
  setPrintedTasks [] ;;;
  savePrintedTasks ;;;
  emit (ConsoleLog "Printed tasks cache cleared").

(** [new PrinterService({ dryRun })] over the outside world of [w]. *)
Definition new (dry : bool) (w : State) : State :=
  snd (loadPrintedTasks
         (mkState dry [] (cacheFile w) (trace w)
                  (deviceCalls w) (fileWrites w) (fileReads w))).

Definition truncate (str : string) (maxLen : nat) : string :=
  if String.eqb str "" then ""
  else if Nat.ltb maxLen (String.length str)
       then Js.substring0 (maxLen - 3) str ++ "..."
       else str.

Definition simulatePrint (task : FormattedTask.t) : M bool :=
  emit (Preview task) ;;; ret true.

(** The printer call of [printTask]: [getDevice], [new Printer],
    [device.open] and the command chain. *)
Definition callDevice (task : FormattedTask.t) : M Outcome :=
  fun s =>
    let o := device env (deviceCalls s) in
    (Resolved o,
     mkState (dryRun s) (printedTasks s) (cacheFile s)
             (trace s ++ [PrintInvocation task o])%list
             (S (deviceCalls s)) (fileWrites s) (fileReads s)).

Definition printTask (task : FormattedTask.t) : M bool :=
  fun s =>
    if isAlreadyPrinted (FormattedTask.id task) s then
      (emit (ConsoleLog ("[SKIP] " ++ FormattedTask.id task ++ " already printed")) ;;;
       ret false) s
    else if dryRun s then
      (emit (ConsoleLog ("[DRY-RUN] Simulating print for " ++ FormattedTask.id task)) ;;;
       simulatePrint task ;;;
       ret true) s
    else
      (o <- callDevice task ;;
       match o with
       | DeviceUnavailable msg => reject msg
       | OpenError msg =>
           emit (ConsoleError ("[ERROR] Could not open printer: " ++ msg)) ;;;
           reject msg
       | PrintError msg =>
           emit (ConsoleError ("[ERROR] Print failed for " ++ FormattedTask.id task
                               ++ ": " ++ msg)) ;;;
           reject msg
       | Printed =>
           markPrinted (FormattedTask.id task) ;;;
           emit (ConsoleLog ("[PRINT] " ++ FormattedTask.id task ++ ": "
                             ++ truncate (FormattedTask.title task) 40)) ;;;
           ret true
       end) s.

Definition testTask : FormattedTask.t :=
  FormattedTask.make "T00000" 0 "Test Ticket - PhabPrint" "Normal" (Js.Str "3")
    "Open" [] ["Test Column"] "https://phabricator.example.com/T00000".

Definition printTest : M bool :=
  fun s =>
    (setPrintedTasks (Set_delete (FormattedTask.id testTask) (printedTasks s)) ;;;
     printTask testTask) s.

Section Dispatch.
(** The objects the array elements refer to. *)
Variable heap : ref -> FormattedTask.t.

(** [tasks.indexOf(task)]: first index holding the same object, or -1. *)
Fixpoint indexOfFrom (i : Z) (tasks : list ref) (task : ref) : Z :=
  match tasks with
  | [] => (-1)%Z
  | x :: rest => if Nat.eqb x task then i else indexOfFrom (i + 1)%Z rest task
  end.

Definition indexOf (tasks : list ref) (task : ref) : Z :=
  indexOfFrom 0%Z tasks task.

Definition sleep (ms : Z) : M unit := emit (Sleep ms).

(** One turn of the [for .. of] loop: the [try] block and its
    [catch]; returns the updated [printedCount]. *)
Definition iteration (tasks : list ref) (delayMs : Z) (task : ref)
    (printedCount : nat) (s : State) : nat * State :=
  match printTask (heap task) s with
  | (Resolved printed, s1) =>
      if printed then
        if (indexOf tasks task <? Z.of_nat (List.length tasks) - 1)%Z
        then (S printedCount, snd (sleep delayMs s1))
        else (S printedCount, s1)
      else (printedCount, s1)
  | (Rejected msg, s1) =>
      (printedCount,
       snd (emit (ConsoleError ("[ERROR] Failed to print "
                                ++ FormattedTask.id (heap task) ++ ": " ++ msg)) s1))
  end.

Fixpoint loop (tasks : list ref) (delayMs : Z) (rest : list ref)
    (printedCount : nat) (s : State) : nat * State :=
  match rest with
  | [] => (printedCount, s)
  | task :: rest' =>
      let '(c, s1) := iteration tasks delayMs task printedCount s in
      loop tasks delayMs rest' c s1
  end.

Definition printTasks (tasks : list ref) (delayMs : Z) (s : State) : nat * State :=
  loop tasks delayMs tasks 0 s.
End Dispatch.
End WithEnv.

(** The tasks handed to the printer by the events of a trace. *)
Definition printInvocations (evs : list Event) : list FormattedTask.t :=
  flat_map (fun e => match e with PrintInvocation t _ => [t] | _ => [] end) evs.

Definition sleeps (evs : list Event) : list Z :=
  flat_map (fun e => match e with Sleep ms => [ms] | _ => [] end) evs.

Definition previews (evs : list Event) : list FormattedTask.t :=
  flat_map (fun e => match e with Preview t => [t] | _ => [] end) evs.

(** Two states that differ at most in their traces. *)
Definition sameCore (s1 s2 : State) : Prop :=
  dryRun s1 = dryRun s2
  /\ printedTasks s1 = printedTasks s2
  /\ cacheFile s1 = cacheFile s2
  /\ deviceCalls s1 = deviceCalls s2
  /\ fileWrites s1 = fileWrites s2
  /\ fileReads s1 = fileReads s2.

End PrinterService.

(* ================================================================== *)
(** ** The sprint filter as the specification words it

    A task qualifies if any column name, across any associated board,
    contains any configured keyword as a case-insensitive substring. *)

Module Spec.

Fixpoint upper (s : string) : string :=
  match s with
  | EmptyString => EmptyString
  | String c s' => String (Js.toUpperCase c) (upper s')
  end.

(** [keyword] occurs in [name], letter case aside. *)
Definition containsIgnoreCase (name keyword : string) : Prop :=
  exists pre post, upper name = pre ++ upper keyword ++ post.

Fixpoint startsWithIgnoreCase (keyword s : string) : bool :=
  match keyword with
  | EmptyString => true
  | String k keyword' =>
      match s with
      | EmptyString => false
      | String c s' =>
          Ascii.eqb (Js.toUpperCase k) (Js.toUpperCase c)
          && startsWithIgnoreCase keyword' s'
      end
  end.

(** Decision procedure for [containsIgnoreCase]. *)
Fixpoint includesIgnoreCase (name keyword : string) : bool :=
  startsWithIgnoreCase keyword name ||
  match name with
  | EmptyString => false
  | String _ name' => includesIgnoreCase name' keyword
  end.

Definition qualifies (keywords : list string) (task : Task.t) : bool :=
  match PhabricatorService.columnsData task with
  | None => false
  | Some bs =>
      existsb (fun board =>
        existsb (fun col =>
          existsb (includesIgnoreCase (Column.name col)) keywords)
          (Board.columns board)) bs
  end.

Definition selectSprintTasks (tasks : list Task.t) (keywords : list string)
    : list Task.t :=
  filter (qualifies keywords) tasks.

(** A keyword free of regular-expression syntax characters. *)
Definition plainKeyword (k : string) : bool :=
  forallb (fun c => negb (Fragment.isSyntaxCharacter c)) (list_ascii_of_string k).

End Spec.

(* ================================================================== *)
(** ** Operations on the dedup cache, as a vocabulary for invariants *)

Module Operations.
Import PrinterService.

Inductive Op :=
| LoadPrintedTasks
| SavePrintedTasks
| MarkPrinted (taskId : string)
| ClearCache
| PrintTask (task : FormattedTask.t)
| PrintTest
| PrintTasks (tasks : list ref) (delayMs : Z).

Definition run (env : Env) (heap : ref -> FormattedTask.t) (op : Op) (s : State) : State :=
  match op with
  | LoadPrintedTasks => snd (loadPrintedTasks env s)
  | SavePrintedTasks => snd (savePrintedTasks env s)
  | MarkPrinted taskId => snd (markPrinted env taskId s)
  | ClearCache => snd (clearCache env s)
  | PrintTask task => snd (printTask env task s)
  | PrintTest => snd (printTest env s)
  | PrintTasks tasks delayMs => snd (printTasks env heap tasks delayMs s)
  end.

Definition runAll (env : Env) (heap : ref -> FormattedTask.t) (ops : list Op)
    (s : State) : State :=
  fold_left (fun st op => run env heap op st) ops s.

Definition isClearCache (op : Op) : bool :=
  match op with ClearCache => true | _ => false end.

Definition isPrintTest (op : Op) : bool :=
  match op with PrintTest => true | _ => false end.

(** Is [taskId] in the persisted array? *)
Definition persisted (taskId : string) (s : State) : bool :=
  match cacheFile s with
  | Some (JsonArray ids) => Set_has taskId ids
  | _ => false
  end.

End Operations.

(* ================================================================== *)
(** ** Sample data *)

Module Examples.
Import PrinterService.

Definition boardOf (names : list string) : Board.t :=
  Board.make (map Column.make names).

Definition rawTask (i : Z) (bs : option (list Board.t)) : Task.t :=
  Task.make i (Fields.make (Some "Fix login") None None None)
    (Some (Attachments.make None (Some (ColumnsAttachment.make bs)))).

Definition bareTask (i : Z) : Task.t :=
  Task.make i (Fields.make None None None None) None.

Definition heap (r : ref) : FormattedTask.t :=
  let taskId := "T" ++ Js.numberToString (Z.of_nat r) in
  FormattedTask.make taskId (Z.of_nat r) "Fix login" "High" (Js.Str "3") "Open"
    [] ["Doing"] ("https://phab.example.com/" ++ taskId).

Definition allFine : Env :=
  {| device := fun _ => Printed;
     writeFileSync := fun _ => None;
     readFileSync := fun _ => None |}.

Definition readOnlyDisk : Env :=
  {| device := fun _ => Printed;
     writeFileSync := fun _ => Some "EACCES: permission denied";
     readFileSync := fun _ => None |}.

Definition printerOff : Env :=
  {| device := fun _ => OpenError "Can not find printer";
     writeFileSync := fun _ => None;
     readFileSync := fun _ => None |}.

Definition fresh (dry : bool) : State := mkState dry [] None [] 0 0 0.

Definition withCache (dry : bool) (ids : list string) : State :=
  mkState dry ids (Some (JsonArray ids)) [] 0 0 0.

End Examples.

(* ================================================================== *)
(** ** More string primitives, for [config/index.js] *)

Module JsString.

(** [WhiteSpace] and [LineTerminator] code units below 256. *)
Definition isWhiteSpace (c : ascii) : bool :=
  existsb (Ascii.eqb c) ["009"; "010"; "011"; "012"; "013"; " "; "160"]%char.

Fixpoint trimStart (s : string) : string :=
  match s with
  | EmptyString => EmptyString
  | String c s' => if isWhiteSpace c then trimStart s' else s
  end.

Fixpoint trimEnd (s : string) : string :=
  match s with
  | EmptyString => EmptyString
  | String c s' =>
      match trimEnd s' with
      | EmptyString => if isWhiteSpace c then EmptyString else String c EmptyString
      | t => String c t
      end
  end.

(** [String.prototype.trim] *)
Definition trim (s : string) : string := trimEnd (trimStart s).

(** Lower case of a code unit: [A]-[Z] and the Latin-1 capitals
    [0xC0]-[0xD6], [0xD8]-[0xDE] move up by 32; every other code unit
    below 256 is its own lower case. *)
Definition toLowerCaseChar (c : ascii) : ascii :=
  let n := nat_of_ascii c in
  if ((Nat.leb 65 n && Nat.leb n 90)
      || (Nat.leb 192 n && Nat.leb n 214)
      || (Nat.leb 216 n && Nat.leb n 222))%bool
  then ascii_of_nat (n + 32) else c.

(** [String.prototype.toLowerCase] *)
Fixpoint toLowerCase (s : string) : string :=
  match s with
  | EmptyString => EmptyString
  | String c s' => String (toLowerCaseChar c) (toLowerCase s')
  end.

(** [String.prototype.split] with a one-character separator. *)
Fixpoint split (sep : ascii) (s : string) : list string :=
  match s with
  | EmptyString => [EmptyString]
  | String c s' =>
      if Ascii.eqb c sep then EmptyString :: split sep s'
      else match split sep s' with
           | [] => [String c EmptyString]
           | w :: ws => String c w :: ws
           end
  end.

End JsString.

(* ================================================================== *)
(** ** [config/index.js]: the [filters] section *)

Module Config.

(** [process.env], for the variables [filters] reads. *)
Record ProcessEnv := {
  SPRINT_COLUMNS : option string;
  TASK_STATUSES : option string
}.

(** [config.filters.sprintColumns] *)
Definition sprintColumns (env : ProcessEnv) : list string :=
  map (fun s => JsString.toLowerCase (JsString.trim s))
    (JsString.split ","
       (PhabricatorService.orElse (SPRINT_COLUMNS env)
          "sprint,to do,in progress,doing")).

(** [config.filters.statuses] *)
Definition statuses (env : ProcessEnv) : list string :=
  map JsString.trim
    (JsString.split "," (PhabricatorService.orElse (TASK_STATUSES env) "open")).

End Config.

(* ================================================================== *)
(** ** [PhabricatorService]: building the Conduit request *)

Module Conduit.

(** A value that is not an object: [typeof v !== 'object'], or [null]. *)
Inductive Scalar :=
| Null
| Bool (b : bool)
| Num (n : Z)
| Str (s : string).

(** Request parameters: scalars, arrays, and objects given by their
    entries in [Object.entries] order. *)
#[local] Unset Elimination Schemes.
Inductive Value :=
| Leaf (v : Scalar)
| Arr (items : list Value)
| Obj (entries : list (string * Value)).
#[local] Set Elimination Schemes.

(** A flat object, by its entries in insertion order. *)
Definition Params := list (string * Scalar).

Fixpoint lookup (key : string) (o : Params) : option Scalar :=
  match o with
  | [] => None
  | (k, v) :: rest => if String.eqb k key then Some v else lookup key rest
  end.

(** [o[key] = v]: an existing key keeps its place, a new one goes last.
    This is the language's order for keys that are not array indices,
    as the keys of a request are (a key written as a canonical integer
    would be listed before the others). *)
Fixpoint set (key : string) (v : Scalar) (o : Params) : Params :=
  match o with
  | [] => [(key, v)]
  | (k, x) :: rest =>
      if String.eqb k key then (k, v) :: rest else (k, x) :: set key v rest
  end.

(** [Object.assign(target, source)] *)
Definition assign (target source : Params) : Params :=
  fold_left (fun o kv => set (fst kv) (snd kv) o) source target.

(** [prefix ? `${prefix}[${key}]` : key] *)
Definition newKey (prefix key : string) : string :=
  if String.eqb prefix "" then key else prefix ++ "[" ++ key ++ "]".

Definition indexKey (key : string) (index : nat) : string :=
  key ++ "[" ++ Js.numberToString (Z.of_nat index) ++ "]".

(** The body of the [for .. of] loop of [flattenParams], for one entry;
    [flatten] is the recursive call. *)
Definition forEntry (flatten : Value -> string -> Params) (prefix : string)
    (result : Params) (key : string) (value : Value) : Params :=
  match value with
  | Arr items =>
      snd (fold_left
             (fun st item =>
                (S (fst st),
                 match item with
                 | Leaf v => set (indexKey (newKey prefix key) (fst st)) v (snd st)
                 | _ => assign (snd st)
                          (flatten item (indexKey (newKey prefix key) (fst st)))
                 end))
             items (0, result))
  | Obj _ => assign result (flatten value (newKey prefix key))
  | Leaf v => set (newKey prefix key) v result
  end.

(** [flattenParams(obj, prefix)]; [Object.entries] of an array pairs each
    item with its index. *)
Fixpoint flattenParams (obj : Value) (prefix : string) {struct obj} : Params :=
  match obj with
  | Obj entries =>
      fold_left
        (fun result kv => forEntry flattenParams prefix result (fst kv) (snd kv))
        entries []
  | Arr items =>
      snd (fold_left
             (fun st item =>
                (S (fst st),
                 forEntry flattenParams prefix (snd st)
                   (Js.numberToString (Z.of_nat (fst st))) item))
             items (0, []))
  | Leaf _ => []
  end.

(** Template-literal interpolation of a scalar. *)
Definition scalarToString (v : Scalar) : string :=
  match v with
  | Null => "null"
  | Bool true => "true"
  | Bool false => "false"
  | Num n => Js.numberToString n
  | Str s => s
  end.

(** The [curlArgs] array of [conduitCall]. *)
Definition curlArgs (apiToken : string) (params : Value) : list string :=
  fold_left
    (fun args kv =>
       List.app args ["--data-urlencode"; fst kv ++ "=" ++ scalarToString (snd kv)])
    (flattenParams params "")
    ["--data-urlencode"; "api.token=" ++ apiToken].

(** The parameters [getMyTasks] passes to [conduitCall]. *)
Definition getMyTasksParams (userPhid : string) (statuses : list string) : Value :=
  Obj [("constraints",
        Obj [("assigned", Arr [Leaf (Str userPhid)]);
             ("statuses", Arr (map (fun s => Leaf (Str s)) statuses))]);
       ("attachments",
        Obj [("projects", Leaf (Bool true)); ("columns", Leaf (Bool true))]);
       ("limit", Leaf (Num 100))].

(** Number of scalars held in a value. *)
Fixpoint leaves (v : Value) : nat :=
  match v with
  | Leaf _ => 1
  | Arr items => fold_right (fun item n => leaves item + n) 0 items
  | Obj entries => fold_right (fun kv n => leaves (snd kv) + n) 0 entries
  end.

(** The parameters an array of strings under [key] flattens to, from
    index [index] on. *)
Fixpoint indexed (key : string) (index : nat) (items : list string) : Params :=
  match items with
  | [] => []
  | item :: rest => (indexKey key index, Str item) :: indexed key (S index) rest
  end.

(** Induction on values, through the lists they hold. *)
Section ValueInduction.
Variable P : Value -> Prop.
Hypothesis leafCase : forall v, P (Leaf v).
Hypothesis arrCase : forall items, Forall P items -> P (Arr items).
Hypothesis objCase :
  forall entries, Forall (fun kv => P (snd kv)) entries -> P (Obj entries).

Fixpoint Value_ind (v : Value) : P v :=
  match v with
  | Leaf x => leafCase x
  | Arr items =>
      arrCase items
        ((fix all (l : list Value) : Forall P l :=
            match l with
            | [] => Forall_nil P
            | x :: rest => Forall_cons x (Value_ind x) (all rest)
            end) items)
  | Obj entries =>
      objCase entries
        ((fix all (l : list (string * Value)) : Forall (fun kv => P (snd kv)) l :=
            match l with
            | [] => Forall_nil _
            | kv :: rest => Forall_cons kv (Value_ind (snd kv)) (all rest)
            end) entries)
  end.
End ValueInduction.

End Conduit.

(* ================================================================== *)
(** ** [index.js]: one poll cycle *)

Module PhabPrint.
Import PrinterService.

Record Error := { message : string; stack : string }.

Record Settings := {
  sprintColumns : list string;       (* [config.filters.sprintColumns] *)
  delayBetweenPrintsMs : Z;          (* [config.polling.delayBetweenPrintsMs] *)
  baseUrl : string;                  (* [config.phabricator.baseUrl] *)
  DEBUG : bool                       (* [process.env.DEBUG] is set *)
}.

(** What the tracker answers to [getMyTasks]. *)
Inductive Answer :=
| Tasks (data : list Task.t)
| Failure (err : Error).

(** What one cycle meets outside: the tracker's answer, and the error
    [new RegExp] throws when it rejects the pattern. *)
Record Cycle := {
  answer : Answer;
  syntaxError : Error
}.

(** [PhabricatorService.getSprintTasks] *)
Definition getSprintTasks (E : RegExpEngine) (cfg : Settings) (c : Cycle) : Answer :=
  match answer c with
  | Failure err => Failure err
  | Tasks tasks =>
      match PhabricatorService.filterSprintTasks E (sprintColumns cfg) tasks with
      | Some sprintTasks => Tasks sprintTasks
      | None => Failure (syntaxError c)
      end
  end.

(** The array built by [tasks.map(...)]: element [r] is a fresh object. *)
Definition heapOf (formattedTasks : list FormattedTask.t) : ref -> FormattedTask.t :=
  fun r => nth r formattedTasks testTask.

Definition log (line : string) (s : State) : State := snd (emit (ConsoleLog line) s).

Definition logError (line : string) (s : State) : State :=
  snd (emit (ConsoleError line) s).

(** [PhabPrint.pollAndPrint] *)
Definition pollAndPrint (E : RegExpEngine) (env : Env) (cfg : Settings) (c : Cycle)
    (s : State) : State :=
  let s1 := log (String "010" "[POLL] Checking for new sprint tasks...") s in
  match getSprintTasks E cfg c with
  | Tasks tasks =>
      let s2 := log ("[INFO] Found " ++ Js.numberToString (Z.of_nat (List.length tasks))
                     ++ " tasks in sprint columns") s1 in
      if Nat.eqb (List.length tasks) 0 then log "[INFO] No tasks to print" s2
      else
        let formattedTasks :=
          map (PhabricatorService.formatTaskForPrint (baseUrl cfg)) tasks in
        let printed :=
          printTasks env (heapOf formattedTasks) (seq 0 (List.length formattedTasks))
            (delayBetweenPrintsMs cfg) s2 in
        log ("[DONE] Printed " ++ Js.numberToString (Z.of_nat (fst printed))
             ++ " new task(s)") (snd printed)
  | Failure err =>
      let s2 := logError ("[ERROR] Poll failed: " ++ message err) s1 in
      if DEBUG cfg then logError (stack err) s2 else s2
  end.

(** Successive cycles, none starting before the previous one has ended. *)
Definition pollCycles (E : RegExpEngine) (env : Env) (cfg : Settings)
    (cycles : list Cycle) (s : State) : State :=
  fold_left (fun st c => pollAndPrint E env cfg c st) cycles s.

End PhabPrint.

(* ================================================================== *)
(** ** Successful prints in a trace *)

Module Delivery.
Import PrinterService.

(** Ids of the tickets that came out of the printer. *)
Definition printedIds (evs : list Event) : list string :=
  flat_map (fun e => match e with
                     | PrintInvocation t Printed => [FormattedTask.id t]
                     | _ => []
                     end) evs.

(** Between [s] and [s'] the events [evs] were emitted; each id was
    printed at most once, only ids that were not cached were printed, and
    every printed id, like every id cached before, is cached in [s']. *)
Definition Delivers (s s' : State) (evs : list Event) : Prop :=
  trace s' = (trace s ++ evs)%list
  /\ NoDup (printedIds evs)
  /\ (forall x, In x (printedIds evs) ->
        Set_has x (printedTasks s) = false /\ Set_has x (printedTasks s') = true)
  /\ (forall x, Set_has x (printedTasks s) = true -> Set_has x (printedTasks s') = true).

(** The file is the [original] one, or an array without repetition. *)
Definition fileOk (original : option FileContent) (s : State) : Prop :=
  cacheFile s = original
  \/ exists ids, cacheFile s = Some (JsonArray ids) /\ NoDup ids.

Definition PrintsOnce (run : State -> State) : Prop :=
  forall s : State, exists evs, Delivers s (run s) evs.

End Delivery.

(* ================================================================== *)
(** * Properties of the sprint filter *)

Section FilterFacts.
Import PhabricatorService.
Variable E : RegExpEngine.

Lemma someColumn_existsb (re : regex E) (cols : list Column.t) :
  someColumn E re cols
  = existsb (fun col => RegExp_test E re (Column.name col)) cols.
Proof.
  induction cols as [|col rest IH]; simpl; [reflexivity|].
  rewrite IH. destruct (RegExp_test E re (Column.name col)); reflexivity.
Qed.

Lemma someBoard_existsb (re : regex E) (bs : list Board.t) :
  someBoard E re bs
  = existsb (fun board =>
      existsb (fun col => RegExp_test E re (Column.name col)) (Board.columns board)) bs.
Proof.
  induction bs as [|b rest IH]; simpl; [reflexivity|].
  rewrite IH, someColumn_existsb.
  destruct (existsb _ (Board.columns b)); reflexivity.
Qed.

Lemma inSprint_absent (re : regex E) (task : Task.t) :
  columnsData task = None -> inSprint E re task = false.
Proof. unfold inSprint. intros ->. reflexivity. Qed.

Lemma filter_drop_rejected {A} (f : A -> bool) (pre post : list A) (x : A) :
  f x = false -> filter f (pre ++ x :: post)%list = filter f (pre ++ post)%list.
Proof.
  intros Hx. rewrite !filter_app. simpl. rewrite Hx. reflexivity.
Qed.
End FilterFacts.

(** C8. A task whose column attachment data is absent is never selected,
    whatever the keywords and whatever the regular-expression engine:
    the outcome of [filterSprintTasks] is the one obtained with the task
    left out of the input (so the task raises no error of its own), and
    the task is not a member of any returned selection. *)
Theorem filterSprintTasks_fail_closed :
  forall (E : RegExpEngine) (keywords : list string)
         (pre post : list Task.t) (task : Task.t),
    PhabricatorService.columnsData task = None ->
    PhabricatorService.filterSprintTasks E keywords (pre ++ task :: post)%list
    = PhabricatorService.filterSprintTasks E keywords (pre ++ post)%list
    /\ (forall selected,
          PhabricatorService.filterSprintTasks E keywords (pre ++ task :: post)%list
          = Some selected -> ~ In task selected).
Proof.
  intros E keywords pre post task Habs.
  unfold PhabricatorService.filterSprintTasks.
  destruct (RegExp_new E (Js.join "|" keywords)) as [re|]; split;
    try reflexivity; try discriminate.
  - f_equal. apply filter_drop_rejected. now apply inSprint_absent.
  - intros selected [= <-] Hin.
    apply filter_In in Hin as [_ Hsel].
    rewrite (inSprint_absent E re task Habs) in Hsel. discriminate.
Qed.

Lemma filterSprintTasks_fail_closed_witness :
  PhabricatorService.columnsData (Examples.bareTask 7) = None
  /\ PhabricatorService.filterSprintTasks Fragment.engine ["sprint"; "doing"]
       ([Examples.rawTask 1 (Some [Examples.boardOf ["Doing"]])]
          ++ Examples.bareTask 7 :: [])%list
     = PhabricatorService.filterSprintTasks Fragment.engine ["sprint"; "doing"]
         ([Examples.rawTask 1 (Some [Examples.boardOf ["Doing"]])] ++ [])%list.
Proof.
  split; [reflexivity|].
  apply (filterSprintTasks_fail_closed Fragment.engine ["sprint"; "doing"]
           [Examples.rawTask 1 (Some [Examples.boardOf ["Doing"]])] []
           (Examples.bareTask 7)).
  reflexivity.
Defined.

(** *** The fragment engine on plain keywords *)

Section PlainKeywords.
Import Fragment.

Lemma plain_char_not_separator (c : ascii) :
  isSyntaxCharacter c = false ->
  Ascii.eqb c "|" = false /\ Ascii.eqb c "." = false.
Proof.
  unfold isSyntaxCharacter. simpl. rewrite !orb_false_iff. tauto.
Qed.

Lemma parse_plain_char (c : ascii) (p : string) (alt : Alternative) (d : Disjunction) :
  isSyntaxCharacter c = false ->
  parse p = Some (alt :: d) ->
  parse (String c p) = Some ((PatternCharacter c :: alt) :: d).
Proof.
  intros Hc Hp. simpl. rewrite Hp.
  destruct (plain_char_not_separator c Hc) as [-> ->]. rewrite Hc. reflexivity.
Qed.

Lemma parse_plain (k : string) :
  Spec.plainKeyword k = true -> parse k = Some [literal k].
Proof.
  unfold Spec.plainKeyword, literal.
  induction k as [|c k IH]; simpl; [reflexivity|].
  rewrite andb_true_iff, negb_true_iff. intros [Hc Hk].
  specialize (IH Hk). destruct (parse k) as [d|]; [|discriminate].
  injection IH as ->.
  destruct (plain_char_not_separator c Hc) as [-> ->]. rewrite Hc. reflexivity.
Qed.

Lemma parse_plain_then (k rest : string) (d : Disjunction) :
  Spec.plainKeyword k = true ->
  parse rest = Some d ->
  parse (k ++ String "|" rest) = Some (literal k :: d).
Proof.
  unfold Spec.plainKeyword, literal. intros Hk Hrest.
  induction k as [|c k IH]; simpl in *.
  - rewrite Hrest. reflexivity.
  - apply andb_true_iff in Hk as [Hc Hk]. apply negb_true_iff in Hc.
    rewrite (IH Hk).
    destruct (plain_char_not_separator c Hc) as [-> ->]. rewrite Hc. reflexivity.
Qed.

Lemma parse_join (keywords : list string) :
  keywords <> [] ->
  forallb Spec.plainKeyword keywords = true ->
  parse (Js.join "|" keywords) = Some (map literal keywords).
Proof.
  unfold Js.join.
  induction keywords as [|k rest IH]; [congruence|].
  intros _ Hall. simpl in Hall. apply andb_true_iff in Hall as [Hk Hrest].
  destruct rest as [|k' rest'].
  - simpl. now apply parse_plain.
  - change (String.concat "|" (k :: k' :: rest'))
      with (k ++ String "|" (String.concat "|" (k' :: rest'))).
    rewrite (parse_plain_then k _ (map literal (k' :: rest')) Hk).
    + reflexivity.
    + apply IH; [discriminate | exact Hrest].
Qed.

Lemma matchAlternative_literal (k s : string) :
  matchAlternative (literal k) s = Spec.startsWithIgnoreCase k s.
Proof.
  unfold literal. revert s.
  induction k as [|c k IH]; intros s; simpl; [reflexivity|].
  destruct s as [|x s]; [reflexivity|].
  unfold canonicalize. now rewrite IH.
Qed.

Lemma existsb_pointwise {A} (f g : A -> bool) (l : list A) :
  (forall x, f x = g x) -> existsb f l = existsb g l.
Proof.
  intros H. induction l as [|x l IH]; simpl; [reflexivity|].
  now rewrite H, IH.
Qed.

Lemma existsb_orb {A} (f g : A -> bool) (l : list A) :
  existsb (fun x => f x || g x) l = existsb f l || existsb g l.
Proof.
  induction l as [|x l IH]; simpl; [reflexivity|].
  rewrite IH. destruct (f x), (g x), (existsb f l), (existsb g l); reflexivity.
Qed.

Lemma matchHere_literals (keywords : list string) (s : string) :
  matchHere (map literal keywords) s
  = existsb (fun k => Spec.startsWithIgnoreCase k s) keywords.
Proof.
  unfold matchHere.
  induction keywords as [|k rest IH]; simpl; [reflexivity|].
  now rewrite IH, matchAlternative_literal.
Qed.

Lemma test_literals (keywords : list string) (s : string) :
  test (map literal keywords) s = existsb (Spec.includesIgnoreCase s) keywords.
Proof.
  induction s as [|c s IH]; simpl.
  - rewrite matchHere_literals, orb_false_r.
    apply existsb_pointwise. intros k. now rewrite orb_false_r.
  - rewrite IH, matchHere_literals, <- existsb_orb. reflexivity.
Qed.
End PlainKeywords.

(** The boolean test [includesIgnoreCase] decides [containsIgnoreCase]. *)
Lemma startsWithIgnoreCase_spec (keyword s : string) :
  Spec.startsWithIgnoreCase keyword s = true
  <-> exists post, Spec.upper s = Spec.upper keyword ++ post.
Proof.
  revert s. induction keyword as [|k keyword IH]; intros s; simpl.
  - split; [intros _; now exists (Spec.upper s) | reflexivity].
  - destruct s as [|c s]; simpl.
    + split; [discriminate | intros [post H]; discriminate].
    + rewrite andb_true_iff, IH. split.
      * intros [Hc [post Hs]]. apply Ascii.eqb_eq in Hc.
        exists post. now rewrite Hc, Hs.
      * intros [post H]. injection H as Hc Hs. split.
        -- rewrite Hc. apply Ascii.eqb_refl.
        -- now exists post.
Qed.

Lemma includesIgnoreCase_spec (name keyword : string) :
  Spec.includesIgnoreCase name keyword = true
  <-> Spec.containsIgnoreCase name keyword.
Proof.
  unfold Spec.containsIgnoreCase.
  induction name as [|c name IH]; simpl.
  - rewrite orb_false_r, startsWithIgnoreCase_spec. simpl. split.
    + intros [post H]. now exists "", post.
    + intros [pre [post H]]. destruct pre; [now exists post | discriminate].
  - rewrite orb_true_iff, IH, startsWithIgnoreCase_spec. simpl. split.
    + intros [[post H] | [pre [post H]]].
      * now exists "", post.
      * exists (String (Js.toUpperCase c) pre), post. simpl. now rewrite H.
    + intros [pre [post H]]. destruct pre as [|a pre].
      * left. now exists post.
      * right. injection H as _ H. now exists pre, post.
Qed.

(** On a non-empty list of keywords free of regular-expression syntax
    characters, [filterSprintTasks] is the substring filter of the
    specification. *)
Lemma filterSprintTasks_plain_keywords :
  forall (keywords : list string) (tasks : list Task.t),
    keywords <> [] ->
    forallb Spec.plainKeyword keywords = true ->
    PhabricatorService.filterSprintTasks Fragment.engine keywords tasks
    = Some (Spec.selectSprintTasks tasks keywords).
Proof.
  intros keywords tasks Hne Hplain.
  unfold PhabricatorService.filterSprintTasks, Spec.selectSprintTasks.
  change (RegExp_new Fragment.engine) with Fragment.parse.
  rewrite (parse_join keywords Hne Hplain). f_equal.
  apply filter_ext. intros task.
  unfold PhabricatorService.inSprint, Spec.qualifies.
  destruct (PhabricatorService.columnsData task) as [bs|]; [|reflexivity].
  rewrite someBoard_existsb.
  apply existsb_pointwise. intros board. apply existsb_pointwise. intros col.
  apply test_literals.
Qed.

(** The scenario of the specification: keywords [sprint] and [doing]. *)
Example filterSprintTasks_scenario :
  PhabricatorService.filterSprintTasks Fragment.engine ["sprint"; "doing"]
    [Examples.rawTask 1 (Some [Examples.boardOf ["Backlog"]]);
     Examples.rawTask 2 (Some [Examples.boardOf ["DOING"]]);
     Examples.rawTask 3 (Some [])]
  = Some [Examples.rawTask 2 (Some [Examples.boardOf ["DOING"]])].
Proof. reflexivity. Qed.

(** C2. [filterSprintTasks] joins the keywords into a regular expression
    without escaping them.  With the keyword [sprint 1.5] a task in the
    column [Sprint 105] is selected, although the column name does not
    contain the keyword as a case-insensitive substring: the dot of the
    keyword matches any character. *)
Theorem filterSprintTasks_keyword_read_as_pattern :
  let task := Examples.rawTask 9 (Some [Examples.boardOf ["Sprint 105"]]) in
  PhabricatorService.filterSprintTasks Fragment.engine ["sprint 1.5"] [task]
  = Some [task]
  /\ Spec.selectSprintTasks [task] ["sprint 1.5"] = []
  /\ ~ Spec.containsIgnoreCase "Sprint 105" "sprint 1.5".
Proof.
  split; [reflexivity|]. split; [reflexivity|].
  rewrite <- includesIgnoreCase_spec. discriminate.
Qed.

(* ================================================================== *)
(** * Properties of the task formatter *)

Lemma parseInteger_numberToString (n : Z) :
  Js.parseInteger (Js.numberToString n) = Some n.
Proof.
  unfold Js.parseInteger, Js.numberToString.
  rewrite NilZero.isi.
  - simpl. now rewrite DecimalZ.of_to.
  - destruct n; simpl; try discriminate.
    intros [= H]. now apply (DecimalPos.Unsigned.to_uint_nonnil p) in H.
  - destruct n; simpl; try discriminate.
    intros [= H]. now apply (DecimalPos.Unsigned.to_uint_nonnil p) in H.
Qed.

Lemma pushColumns_app (acc : list string) (board : Board.t) :
  PhabricatorService.pushColumns acc board
  = (acc ++ map Column.name (Board.columns board))%list.
Proof.
  unfold PhabricatorService.pushColumns.
  generalize (Board.columns board) as cols. intros cols. revert acc.
  induction cols as [|col cols IH]; intros acc; simpl.
  - now rewrite app_nil_r.
  - rewrite IH, <- app_assoc. reflexivity.
Qed.

Lemma fold_pushColumns (bs : list Board.t) (acc : list string) :
  fold_left PhabricatorService.pushColumns bs acc
  = (acc ++ flat_map (fun board => map Column.name (Board.columns board)) bs)%list.
Proof.
  revert acc. induction bs as [|b bs IH]; intros acc; simpl.
  - now rewrite app_nil_r.
  - rewrite IH, pushColumns_app, <- app_assoc. reflexivity.
Qed.

Lemma boardsOf_ofBoard (bs : list Board.t) :
  PhabricatorService.boardsOf (map LooseTask.ofBoard bs) = Some bs.
Proof.
  induction bs as [|[cols] bs IH]; simpl; [reflexivity|].
  now rewrite IH.
Qed.

Lemma attachmentsOf_ofAttachments (a : option Attachments.t) :
  PhabricatorService.attachmentsOf (option_map LooseTask.ofAttachments a)
  = Some a.
Proof.
  destruct a as [[projects [[[bs|]]|]]|]; simpl; try reflexivity.
  now rewrite boardsOf_ofBoard.
Qed.

(** On a record of the tracker's shape the call returns what the typed
    function computes. *)
Lemma formatTaskForPrintCall_ofTask (baseUrl : string) (task : Task.t) :
  PhabricatorService.formatTaskForPrintCall (Some baseUrl) (LooseTask.ofTask task)
  = Some (PhabricatorService.formatTaskForPrint baseUrl task).
Proof.
  unfold PhabricatorService.formatTaskForPrintCall. simpl.
  rewrite attachmentsOf_ofAttachments. now destruct task.
Qed.

(** The call throws exactly when the record has no [fields], a board has
    no [columns], or the base URL is unset. *)
Lemma formatTaskForPrintCall_throws
    (baseUrl : option string) (task : LooseTask.t) :
  PhabricatorService.formatTaskForPrintCall baseUrl task = None
  <-> (LooseTask.fields task = None
       \/ PhabricatorService.attachmentsOf (LooseTask.attachments task) = None
       \/ baseUrl = None).
Proof.
  unfold PhabricatorService.formatTaskForPrintCall.
  destruct (LooseTask.fields task) as [f|]; [|intuition].
  destruct (PhabricatorService.attachmentsOf (LooseTask.attachments task))
    as [a|]; [|intuition].
  destruct baseUrl as [u|]; [|intuition].
  split; [discriminate|]. intros [H|[H|H]]; discriminate.
Qed.

Lemma boardsOf_inv (bs : list LooseBoard.t) (bs' : list Board.t) :
  PhabricatorService.boardsOf bs = Some bs' -> bs = map LooseTask.ofBoard bs'.
Proof.
  revert bs'. induction bs as [|[[cols|]] bs IH]; intros bs'; simpl.
  - now intros [= <-].
  - destruct (PhabricatorService.boardsOf bs) as [rest|]; [|discriminate].
    intros [= <-]. simpl. now rewrite (IH rest eq_refl).
  - discriminate.
Qed.

Lemma attachmentsOf_inv (a : option LooseAttachments.t) (a' : option Attachments.t) :
  PhabricatorService.attachmentsOf a = Some a' ->
  a = option_map LooseTask.ofAttachments a'.
Proof.
  destruct a as [[projects [[[bs|]]|]]|]; simpl.
  - destruct (PhabricatorService.boardsOf bs) as [bs'|] eqn:Hbs; [|discriminate].
    intros [= <-]. apply boardsOf_inv in Hbs. now subst bs.
  - now intros [= <-].
  - now intros [= <-].
  - now intros [= <-].
Qed.

(** The call returns on the records of the tracker's shape only, and
    only when the base URL is set. *)
Lemma formatTaskForPrintCall_returns
    (baseUrl : option string) (record : LooseTask.t) (r : FormattedTask.t) :
  PhabricatorService.formatTaskForPrintCall baseUrl record = Some r ->
  exists url task,
    baseUrl = Some url
    /\ record = LooseTask.ofTask task
    /\ r = PhabricatorService.formatTaskForPrint url task.
Proof.
  unfold PhabricatorService.formatTaskForPrintCall.
  destruct record as [i [f|] a]; simpl; [|discriminate].
  destruct (PhabricatorService.attachmentsOf a) as [a'|] eqn:Ha; [|discriminate].
  destruct baseUrl as [url|]; [|discriminate].
  intros [= <-]. exists url, (Task.make i f a').
  apply attachmentsOf_inv in Ha. subst a. now split.
Qed.

(** C9. Called on a raw task record that has its [fields] (and the
    [columns] of each attached board), by a service whose base URL is set,
    [formatTaskForPrint] returns.  The [id] of its result is the letter T
    followed by the numeric id, in decimal for a safe integer (it reads
    back as that id); a missing or empty title becomes [Untitled], a
    missing or empty priority or status name [Unknown], a missing point
    estimate [N/A]; values that are present are kept; and [columns] lists
    the column names of all attached boards, board after board, or is
    empty when the attachments, their columns or the boards are absent.
    On a record without [fields], and on a service without base URL, the
    call throws. *)
Theorem formatTaskForPrint_fields :
  forall (baseUrl : string) (task : Task.t),
    Js.isSafeInteger (Task.id task) = true ->
    (exists r : FormattedTask.t,
        PhabricatorService.formatTaskForPrintCall (Some baseUrl)
          (LooseTask.ofTask task) = Some r
        /\ r = PhabricatorService.formatTaskForPrint baseUrl task
        /\ FormattedTask.id r = String "T" (Js.numberToString (Task.id task))
        /\ Js.parseInteger (Js.drop 1 (FormattedTask.id r)) = Some (Task.id task)
        /\ FormattedTask.numericId r = Task.id task
        /\ FormattedTask.title r
           = match Fields.name (Task.fields task) with
             | Some (String c title) => String c title
             | Some EmptyString | None => "Untitled"
             end
        /\ FormattedTask.priority r
           = match Fields.priority (Task.fields task) with
             | Some {| Named.name := Some (String c name) |} => String c name
             | _ => "Unknown"
             end
        /\ FormattedTask.points r
           = match Fields.points (Task.fields task) with
             | Some v => v
             | None => Js.Str "N/A"
             end
        /\ FormattedTask.status r
           = match Fields.status (Task.fields task) with
             | Some {| Named.name := Some (String c name) |} => String c name
             | _ => "Unknown"
             end
        /\ FormattedTask.columns r
           = match Task.attachments task with
             | Some {| Attachments.columns :=
                         Some {| ColumnsAttachment.boards := Some bs |} |} =>
                 flat_map (fun board => map Column.name (Board.columns board)) bs
             | _ => []
             end)
    /\ (forall (url : option string) (i : Z) (a : option LooseAttachments.t),
          PhabricatorService.formatTaskForPrintCall url (LooseTask.make i None a)
          = None)
    /\ (forall record : LooseTask.t,
          PhabricatorService.formatTaskForPrintCall None record = None).
Proof.
  intros baseUrl task _. split; [|split].
  - exists (PhabricatorService.formatTaskForPrint baseUrl task).
    split; [apply formatTaskForPrintCall_ofTask|].
    split; [reflexivity|].
    destruct task as [i [nm pr pt st] att]. simpl.
    split; [reflexivity|].
    split; [apply parseInteger_numberToString|].
    split; [reflexivity|].
    split; [destruct nm as [[|c title]|]; reflexivity|].
    split; [destruct pr as [[[[|c name]|]]|]; reflexivity|].
    split; [reflexivity|].
    split; [destruct st as [[[[|c name]|]]|]; reflexivity|].
    destruct att as [[projects [[[bs|]]|]]|]; try reflexivity.
    unfold PhabricatorService.columnsData. simpl.
    now rewrite fold_pushColumns.
  - intros url i a. reflexivity.
  - intros record. apply formatTaskForPrintCall_throws. now right; right.
Qed.

(** The sample task of the tracker, formatted: its columns are those of
    its two boards, in order. *)
Lemma formatTaskForPrint_fields_witness :
  let task :=
    Task.make 12345
      (Fields.make (Some "") (Some (Named.make (Some "High")))
         (Some (Js.Number 0)) None)
      (Some (Attachments.make None
         (Some (ColumnsAttachment.make
            (Some [Examples.boardOf ["Sprint"; "Doing"];
                   Examples.boardOf ["Review"]]))))) in
  Js.isSafeInteger (Task.id task) = true
  /\ PhabricatorService.formatTaskForPrintCall
       (Some "https://phab.example.com/api") (LooseTask.ofTask task)
     = Some (FormattedTask.make "T12345" 12345 "Untitled" "High" (Js.Number 0)
               "Unknown" [] ["Sprint"; "Doing"; "Review"]
               "https://phab.example.com/T12345").
Proof.
  cbv zeta. split; [reflexivity|].
  destruct (formatTaskForPrint_fields "https://phab.example.com/api"
              (Task.make 12345
                 (Fields.make (Some "") (Some (Named.make (Some "High")))
                    (Some (Js.Number 0)) None)
                 (Some (Attachments.make None
                    (Some (ColumnsAttachment.make
                       (Some [Examples.boardOf ["Sprint"; "Doing"];
                              Examples.boardOf ["Review"]]))))))
              eq_refl) as [[r [Hcall [Hr _]]] _].
  rewrite Hcall, Hr. reflexivity.
Defined.

(** The claim's totality fails on a record without [fields], on a board
    without [columns], and on a service whose base URL is unset: each of
    the three calls throws. *)
Lemma formatTaskForPrint_throws :
  PhabricatorService.formatTaskForPrintCall
    (Some "https://phab.example.com/api") (LooseTask.make 7 None None) = None
  /\ PhabricatorService.formatTaskForPrintCall None
       (LooseTask.ofTask (Examples.rawTask 7 (Some [Examples.boardOf ["Doing"]])))
     = None
  /\ PhabricatorService.formatTaskForPrintCall
       (Some "https://phab.example.com/api")
       (LooseTask.make 7 (Some (Fields.make (Some "Fix login") None None None))
          (Some (LooseAttachments.make None
             (Some (LooseColumnsAttachment.make
                (Some [LooseBoard.make None]))))))
     = None.
Proof. split; [reflexivity|]. split; reflexivity. Qed.

(** An empty title is falsy and is replaced as a missing one is. *)
Example formatTaskForPrint_sample :
  PhabricatorService.formatTaskForPrint "https://phab.example.com/api"
    (Task.make 12345
       (Fields.make (Some "") (Some (Named.make (Some "High"))) (Some (Js.Number 0)) None)
       (Some (Attachments.make None
          (Some (ColumnsAttachment.make
             (Some [Examples.boardOf ["Sprint"; "Doing"]; Examples.boardOf ["Review"]]))))))
  = FormattedTask.make "T12345" 12345 "Untitled" "High" (Js.Number 0) "Unknown" []
      ["Sprint"; "Doing"; "Review"] "https://phab.example.com/T12345".
Proof. reflexivity. Qed.

(* ================================================================== *)
(** * Properties of the printer service *)

Import PrinterService.

(** Unfold the service down to matches on the state and the oracle. *)
Ltac unfold_service :=
  unfold iteration, printTest, printTask, markPrinted, clearCache,
    savePrintedTasks, loadPrintedTasks, fsWrite, fsRead, callDevice,
    simulatePrint, sleep, isAlreadyPrinted, bind, ret, reject, emit,
    setPrintedTasks;
  simpl.

(** Split on every test met in the goal. *)
Ltac split_tests :=
  repeat match goal with
         | |- context [if ?b then _ else _] => destruct b eqn:?; simpl
         | |- context [match device ?e ?n with _ => _ end] =>
             destruct (device e n) eqn:?; simpl
         | |- context [match writeFileSync ?e ?n with _ => _ end] =>
             destruct (writeFileSync e n) eqn:?; simpl
         | |- context [match readFileSync ?e ?n with _ => _ end] =>
             destruct (readFileSync e n) eqn:?; simpl
         end.

(** Split a conjunction into its conjuncts, and nothing else. *)
Ltac split_conj := repeat match goal with |- _ /\ _ => split end.

(** Present a trace built by successive [emit]s as [trace s ++ evs]. *)
Ltac normalize_trace := repeat rewrite <- app_assoc; simpl.

(** *** The [Set] *)

Lemma Set_has_In (x : string) (s : list string) :
  Set_has x s = true <-> In x s.
Proof.
  unfold Set_has. rewrite existsb_exists. split.
  - intros [y [Hin Heq]]. apply String.eqb_eq in Heq. now subst.
  - intros Hin. exists x. split; [assumption | apply String.eqb_refl].
Qed.

Lemma Set_has_add_same (x : string) (s : list string) :
  Set_has x (Set_add x s) = true.
Proof.
  unfold Set_add. destruct (Set_has x s) eqn:H; [assumption|].
  apply Set_has_In, in_or_app. right. now left.
Qed.

Lemma Set_has_add_keeps (x y : string) (s : list string) :
  Set_has x s = true -> Set_has x (Set_add y s) = true.
Proof.
  unfold Set_add. intros H. destruct (Set_has y s); [assumption|].
  apply Set_has_In, in_or_app. left. now apply Set_has_In.
Qed.

Lemma Set_has_add_other (x y : string) (s : list string) :
  x <> y -> Set_has x (Set_add y s) = Set_has x s.
Proof.
  intros Hne. unfold Set_add. destruct (Set_has y s); [reflexivity|].
  unfold Set_has. rewrite existsb_app. simpl.
  apply String.eqb_neq in Hne. rewrite Hne. now rewrite !orb_false_r.
Qed.

Lemma Set_has_delete_other (x y : string) (s : list string) :
  x <> y -> Set_has x s = true -> Set_has x (Set_delete y s) = true.
Proof.
  intros Hne H. apply Set_has_In. apply Set_has_In in H.
  unfold Set_delete. apply filter_In. split; [assumption|].
  apply negb_true_iff, String.eqb_neq. congruence.
Qed.

Lemma Set_has_delete_same (x : string) (s : list string) :
  Set_has x (Set_delete x s) = false.
Proof.
  destruct (Set_has x (Set_delete x s)) eqn:H; [|reflexivity].
  apply Set_has_In in H. unfold Set_delete in H.
  apply filter_In in H as [_ H]. now rewrite String.eqb_refl in H.
Qed.

Lemma fold_Set_add_keeps (x : string) (data acc : list string) :
  Set_has x acc = true ->
  Set_has x (fold_left (fun a i => Set_add i a) data acc) = true.
Proof.
  revert acc. induction data as [|y data IH]; intros acc H; simpl; [assumption|].
  apply IH. now apply Set_has_add_keeps.
Qed.

Lemma fold_Set_add_loads (x : string) (data acc : list string) :
  Set_has x data = true ->
  Set_has x (fold_left (fun a i => Set_add i a) data acc) = true.
Proof.
  revert acc. induction data as [|y data IH]; intros acc H; simpl in *; [discriminate|].
  unfold Set_has in H. simpl in H. apply orb_true_iff in H as [H | H].
  - apply String.eqb_eq in H. subst y.
    apply fold_Set_add_keeps, Set_has_add_same.
  - now apply IH.
Qed.

Create HintDb printed discriminated.
#[local] Hint Resolve Set_has_add_same Set_has_add_keeps Set_has_delete_other
  fold_Set_add_keeps fold_Set_add_loads : printed.

(** *** States up to their traces *)

Lemma sameCore_refl (s : State) : sameCore s s.
Proof. unfold sameCore. tauto. Qed.

Lemma sameCore_sym (s1 s2 : State) : sameCore s1 s2 -> sameCore s2 s1.
Proof. unfold sameCore. intuition congruence. Qed.

Lemma sameCore_trans (s1 s2 s3 : State) :
  sameCore s1 s2 -> sameCore s2 s3 -> sameCore s1 s3.
Proof. unfold sameCore. intuition congruence. Qed.

Lemma sameCore_emit (e : Event) (s : State) : sameCore s (snd (emit e s)).
Proof. unfold sameCore. simpl. tauto. Qed.

Section DispatchFacts.
Variable env : Env.
Variable heap : ref -> FormattedTask.t.

(** The count and the core of the state after one turn of the loop do not
    depend on the trace, on the array used for [indexOf], or on the delay. *)
Lemma iteration_sameCore (tasks1 tasks2 : list ref) (d1 d2 : Z) (task : ref)
    (c : nat) (s1 s2 : State) :
  sameCore s1 s2 ->
  fst (iteration env heap tasks1 d1 task c s1)
  = fst (iteration env heap tasks2 d2 task c s2)
  /\ sameCore (snd (iteration env heap tasks1 d1 task c s1))
              (snd (iteration env heap tasks2 d2 task c s2)).
Proof.
  destruct s1, s2. unfold sameCore. simpl.
  intros (-> & -> & -> & -> & -> & ->).
  unfold_service. split_tests; repeat split; reflexivity.
Qed.

Lemma loop_sameCore (tasks1 tasks2 : list ref) (d1 d2 : Z) (rest : list ref) :
  forall (c : nat) (s1 s2 : State),
    sameCore s1 s2 ->
    fst (loop env heap tasks1 d1 rest c s1) = fst (loop env heap tasks2 d2 rest c s2)
    /\ sameCore (snd (loop env heap tasks1 d1 rest c s1))
                (snd (loop env heap tasks2 d2 rest c s2)).
Proof.
  induction rest as [|task rest IH]; intros c s1 s2 Hcore; simpl.
  - split; [reflexivity | assumption].
  - destruct (iteration_sameCore tasks1 tasks2 d1 d2 task c s1 s2 Hcore) as [Hc Hs].
    destruct (iteration env heap tasks1 d1 task c s1) as [c1 s1'].
    destruct (iteration env heap tasks2 d2 task c s2) as [c2 s2'].
    simpl in Hc, Hs. subst c2. now apply IH.
Qed.

Lemma loop_app (tasks : list ref) (d : Z) (front back : list ref) :
  forall (c : nat) (s : State),
    loop env heap tasks d (front ++ back)%list c s
    = loop env heap tasks d back
        (fst (loop env heap tasks d front c s))
        (snd (loop env heap tasks d front c s)).
Proof.
  induction front as [|task front IH]; intros c s; simpl; [reflexivity|].
  destruct (iteration env heap tasks d task c s) as [c1 s1]. apply IH.
Qed.

(** A task whose id is in the cache: one console line, nothing else. *)
Lemma iteration_cached (tasks : list ref) (d : Z) (task : ref) (c : nat) (s : State) :
  isAlreadyPrinted (FormattedTask.id (heap task)) s = true ->
  iteration env heap tasks d task c s
  = (c, snd (emit (ConsoleLog ("[SKIP] " ++ FormattedTask.id (heap task)
                               ++ " already printed")) s)).
Proof.
  intros H. unfold iteration, printTask. rewrite H. reflexivity.
Qed.

(** One turn never removes an id from the set, nor from the file while
    the id is in the set. *)
Lemma iteration_keeps (tasks : list ref) (d : Z) (task : ref) (c : nat)
    (s : State) (x : string) :
  Set_has x (printedTasks s) = true ->
  Set_has x (printedTasks (snd (iteration env heap tasks d task c s))) = true
  /\ (Operations.persisted x s = true ->
      Operations.persisted x (snd (iteration env heap tasks d task c s)) = true).
Proof.
  intros Hx. destruct s. unfold Operations.persisted. simpl in *. unfold_service.
  split_tests; split; auto with printed.
Qed.

Lemma loop_keeps (tasks : list ref) (d : Z) (rest : list ref) (x : string) :
  forall (c : nat) (s : State),
    Set_has x (printedTasks s) = true ->
    Set_has x (printedTasks (snd (loop env heap tasks d rest c s))) = true
    /\ (Operations.persisted x s = true ->
        Operations.persisted x (snd (loop env heap tasks d rest c s)) = true).
Proof.
  induction rest as [|task rest IH]; intros c s Hx; simpl; [tauto|].
  destruct (iteration_keeps tasks d task c s x Hx) as [H1 H2].
  destruct (iteration env heap tasks d task c s) as [c1 s1]. simpl in *.
  destruct (IH c1 s1 H1) as [H3 H4]. auto.
Qed.

(** While an id is in the cache, no turn hands a task of that id to the
    printer. *)
Lemma iteration_no_invocation (tasks : list ref) (d : Z) (task : ref) (c : nat)
    (s : State) (x : string) :
  Set_has x (printedTasks s) = true ->
  exists evs,
    trace (snd (iteration env heap tasks d task c s)) = (trace s ++ evs)%list
    /\ forall t, In t (printInvocations evs) -> FormattedTask.id t <> x.
Proof.
  intros Hx. destruct s. simpl in *. unfold_service.
  split_tests; normalize_trace; eexists; (split; [reflexivity|]);
    simpl; intros t Hin; repeat (destruct Hin as [<- | Hin]; [congruence|]);
    try contradiction.
Qed.

Lemma loop_no_invocation (tasks : list ref) (d : Z) (rest : list ref) (x : string) :
  forall (c : nat) (s : State),
    Set_has x (printedTasks s) = true ->
    exists evs,
      trace (snd (loop env heap tasks d rest c s)) = (trace s ++ evs)%list
      /\ forall t, In t (printInvocations evs) -> FormattedTask.id t <> x.
Proof.
  induction rest as [|task rest IH]; intros c s Hx; simpl.
  - exists []. split; [now rewrite app_nil_r | intros t []].
  - destruct (iteration_no_invocation tasks d task c s x Hx) as (evs1 & Ht1 & Hi1).
    destruct (iteration_keeps tasks d task c s x Hx) as [Hk _].
    destruct (iteration env heap tasks d task c s) as [c1 s1]. simpl in *.
    destruct (IH c1 s1 Hk) as (evs2 & Ht2 & Hi2).
    exists (evs1 ++ evs2)%list. split.
    + now rewrite Ht2, Ht1, app_assoc.
    + intros t Hin. unfold printInvocations in Hin.
      rewrite flat_map_app in Hin. apply in_app_or in Hin as [Hin | Hin]; auto.
Qed.
End DispatchFacts.

(** C1. Let a task [T] of the batch have its id in the dedup cache when
    [printTasks] starts.  Then no task with that id is handed to the
    printer during the dispatch; the turn of the loop at [T] leaves the
    count as it was and does nothing but write the [SKIP] console line;
    and the returned count, like the cache, the file and the numbers of
    device and file calls at the end, is what the dispatch of the batch
    without [T] gives. *)
Theorem printTasks_skips_cached :
  forall (env : Env) (heap : ref -> FormattedTask.t)
         (pre post : list ref) (T : ref) (delayMs : Z) (s : State),
    isAlreadyPrinted (FormattedTask.id (heap T)) s = true ->
    let tasks := (pre ++ T :: post)%list in
    let result := printTasks env heap tasks delayMs s in
    let before := loop env heap tasks delayMs pre 0 s in
    (exists evs,
        trace (snd result) = (trace s ++ evs)%list
        /\ forall t, In t (printInvocations evs) ->
                     FormattedTask.id t <> FormattedTask.id (heap T))
    /\ iteration env heap tasks delayMs T (fst before) (snd before)
       = (fst before,
          snd (emit (ConsoleLog ("[SKIP] " ++ FormattedTask.id (heap T)
                                 ++ " already printed")) (snd before)))
    /\ fst result = fst (printTasks env heap (pre ++ post)%list delayMs s)
    /\ sameCore (snd result) (snd (printTasks env heap (pre ++ post)%list delayMs s)).
Proof.
  intros env heap pre post T delayMs s Hcached tasks result before.
  assert (Hbefore : isAlreadyPrinted (FormattedTask.id (heap T)) (snd before) = true).
  { unfold isAlreadyPrinted in *. now apply loop_keeps. }
  assert (Hturn := iteration_cached env heap tasks delayMs T (fst before) (snd before) Hbefore).
  split; [|split; [exact Hturn|]].
  - apply loop_no_invocation. exact Hcached.
  - assert (Hl : result
                 = loop env heap tasks delayMs post (fst before)
                     (snd (emit (ConsoleLog ("[SKIP] " ++ FormattedTask.id (heap T)
                                             ++ " already printed")) (snd before)))).
    { unfold result, printTasks. unfold tasks at 2. rewrite loop_app.
      fold before. simpl. now rewrite Hturn. }
    assert (Hr : printTasks env heap (pre ++ post)%list delayMs s
                 = loop env heap (pre ++ post)%list delayMs post
                     (fst (loop env heap (pre ++ post)%list delayMs pre 0 s))
                     (snd (loop env heap (pre ++ post)%list delayMs pre 0 s))).
    { unfold printTasks. apply loop_app. }
    rewrite Hl, Hr.
    destruct (loop_sameCore env heap tasks (pre ++ post)%list delayMs delayMs pre 0 s s
                (sameCore_refl s)) as [Hc Hs].
    fold before in Hc, Hs. rewrite <- Hc.
    apply loop_sameCore.
    eapply sameCore_trans; [|exact Hs].
    apply sameCore_sym, sameCore_emit.
Qed.

Lemma printTasks_skips_cached_witness :
  let s := Examples.withCache false ["T2"] in
  isAlreadyPrinted (FormattedTask.id (Examples.heap 2)) s = true
  /\ fst (printTasks Examples.allFine Examples.heap ([1] ++ 2 :: [3])%list 1000 s)
     = fst (printTasks Examples.allFine Examples.heap ([1] ++ [3])%list 1000 s).
Proof.
  split; [reflexivity|].
  apply (printTasks_skips_cached Examples.allFine Examples.heap [1] [3] 2 1000
           (Examples.withCache false ["T2"])).
  reflexivity.
Defined.

(** The scenario of the specification: a first dispatch prints, a second
    dispatch against the resulting cache prints nothing. *)
Example printTasks_scenario :
  let first := printTasks Examples.allFine Examples.heap [2] 0 (Examples.fresh false) in
  let second := printTasks Examples.allFine Examples.heap [2] 0 (snd first) in
  fst first = 1
  /\ printedTasks (snd first) = ["T2"]
  /\ cacheFile (snd first) = Some (JsonArray ["T2"])
  /\ printInvocations (trace (snd first)) = [Examples.heap 2]
  /\ fst second = 0
  /\ printInvocations (trace (snd second)) = [Examples.heap 2].
Proof. repeat split; reflexivity. Qed.

(** *** Dry-run mode *)

Section DryRunFacts.
Variable env : Env.
Variable heap : ref -> FormattedTask.t.

Lemma iteration_dryRun (tasks : list ref) (d : Z) (task : ref) (c : nat) (s : State) :
  dryRun s = true ->
  let r := iteration env heap tasks d task c s in
  fst r = (c + if Set_has (FormattedTask.id (heap task)) (printedTasks s) then 0 else 1)%nat
  /\ dryRun (snd r) = true
  /\ printedTasks (snd r) = printedTasks s
  /\ cacheFile (snd r) = cacheFile s
  /\ deviceCalls (snd r) = deviceCalls s
  /\ fileWrites (snd r) = fileWrites s
  /\ exists evs,
       trace (snd r) = (trace s ++ evs)%list
       /\ printInvocations evs = []
       /\ previews evs
          = if Set_has (FormattedTask.id (heap task)) (printedTasks s)
            then [] else [heap task].
Proof.
  destruct s. simpl. intros ->. unfold_service.
  split_tests; normalize_trace; split_conj; try reflexivity; try lia;
    eexists; split_conj; reflexivity.
Qed.

Lemma loop_dryRun (tasks : list ref) (d : Z) (rest : list ref) :
  forall (c : nat) (s : State),
    dryRun s = true ->
    let simulated :=
      filter (fun r => negb (Set_has (FormattedTask.id (heap r)) (printedTasks s))) rest in
    let r := loop env heap tasks d rest c s in
    fst r = (c + List.length simulated)%nat
    /\ dryRun (snd r) = true
    /\ printedTasks (snd r) = printedTasks s
    /\ cacheFile (snd r) = cacheFile s
    /\ deviceCalls (snd r) = deviceCalls s
    /\ fileWrites (snd r) = fileWrites s
    /\ exists evs,
         trace (snd r) = (trace s ++ evs)%list
         /\ printInvocations evs = []
         /\ previews evs = map heap simulated.
Proof.
  induction rest as [|task rest IH]; intros c s Hdry; cbv zeta in *; simpl.
  - split_conj; try reflexivity; try lia; try assumption.
    exists []. now rewrite app_nil_r.
  - destruct (iteration_dryRun tasks d task c s Hdry)
      as (Hc & Hd & Hp & Hf & Hdev & Hw & evs1 & Ht1 & Hi1 & Hv1).
    destruct (iteration env heap tasks d task c s) as [c1 s1]. simpl in *.
    destruct (IH c1 s1 Hd) as (Hc' & Hd' & Hp' & Hf' & Hdev' & Hw' & evs2 & Ht2 & Hi2 & Hv2).
    rewrite Hp in *.
    split_conj; try congruence.
    + rewrite Hc', Hc.
      destruct (Set_has (FormattedTask.id (heap task)) (printedTasks s)); simpl; lia.
    + exists (evs1 ++ evs2)%list. split_conj.
      * now rewrite Ht2, Ht1, app_assoc.
      * unfold printInvocations in *. now rewrite flat_map_app, Hi1, Hi2.
      * unfold previews in *. rewrite flat_map_app, Hv1, Hv2.
        destruct (Set_has (FormattedTask.id (heap task)) (printedTasks s)); reflexivity.
Qed.
End DryRunFacts.

(** C10. In dry-run mode [printTasks] returns the number of tasks of the
    batch whose id is not in the dedup cache: each of them is previewed on
    the console and counted, in order, while the printer is never called
    and the cache, in memory and on file, stays as it was. *)
Theorem printTasks_dryRun_counts_simulated :
  forall (env : Env) (heap : ref -> FormattedTask.t)
         (tasks : list ref) (delayMs : Z) (s : State),
    dryRun s = true ->
    let simulated :=
      filter (fun r => negb (isAlreadyPrinted (FormattedTask.id (heap r)) s)) tasks in
    let result := printTasks env heap tasks delayMs s in
    fst result = List.length simulated
    /\ printedTasks (snd result) = printedTasks s
    /\ cacheFile (snd result) = cacheFile s
    /\ deviceCalls (snd result) = deviceCalls s
    /\ exists evs,
         trace (snd result) = (trace s ++ evs)%list
         /\ printInvocations evs = []
         /\ previews evs = map heap simulated.
Proof.
  intros env heap tasks delayMs s Hdry simulated result.
  destruct (loop_dryRun env heap tasks delayMs tasks 0 s Hdry)
    as (Hc & _ & Hp & Hf & Hdev & _ & Hevs).
  split_conj; assumption.
Qed.

Lemma printTasks_dryRun_counts_simulated_witness :
  dryRun (Examples.withCache true ["T2"]) = true
  /\ fst (printTasks Examples.printerOff Examples.heap [1; 2; 3; 1] 1000
            (Examples.withCache true ["T2"])) = 3.
Proof.
  split; [reflexivity|].
  apply (printTasks_dryRun_counts_simulated Examples.printerOff Examples.heap
           [1; 2; 3; 1] 1000 (Examples.withCache true ["T2"])).
  reflexivity.
Defined.

(** *** Real mode *)

Section RealModeFacts.
Variable env : Env.
Variable heap : ref -> FormattedTask.t.

Lemma printTasks_single (T : ref) (d : Z) (s : State) :
  printTasks env heap [T] d s = iteration env heap [T] d T 0 s.
Proof.
  unfold printTasks. simpl. now destruct (iteration env heap [T] d T 0 s).
Qed.

(** A task that is not cached is handed to the printer exactly once. *)
Lemma iteration_real_invokes (tasks : list ref) (d : Z) (task : ref) (c : nat) (s : State) :
  dryRun s = false ->
  Set_has (FormattedTask.id (heap task)) (printedTasks s) = false ->
  exists evs,
    trace (snd (iteration env heap tasks d task c s)) = (trace s ++ evs)%list
    /\ printInvocations evs = [heap task].
Proof.
  destruct s. simpl. intros -> Hnew. unfold_service. rewrite Hnew. simpl.
  split_tests; normalize_trace; eexists; split; reflexivity.
Qed.

Lemma iteration_printed (tasks : list ref) (d : Z) (task : ref) (c : nat) (s : State) :
  dryRun s = false ->
  Set_has (FormattedTask.id (heap task)) (printedTasks s) = false ->
  device env (deviceCalls s) = Printed ->
  let r := iteration env heap tasks d task c s in
  fst r = S c
  /\ printedTasks (snd r) = Set_add (FormattedTask.id (heap task)) (printedTasks s)
  /\ (writeFileSync env (fileWrites s) = None ->
      cacheFile (snd r)
      = Some (JsonArray (Set_add (FormattedTask.id (heap task)) (printedTasks s)))).
Proof.
  destruct s. simpl. intros -> Hnew Hdev. unfold_service.
  rewrite Hnew, Hdev. simpl.
  split_tests; split_conj; try reflexivity; intros [=].
Qed.

End RealModeFacts.

(** C4. Dispatching a task whose id is not in the dedup cache in dry-run
    mode counts it, calls neither the printer nor [markPrinted], and leaves
    the cache as it was, in memory and on file.  A real-mode service holding
    that same cache then hands the task to the printer exactly once; when
    the printer succeeds the task is counted and marked. *)
Theorem dryRun_does_not_suppress_print :
  forall (env : Env) (heap : ref -> FormattedTask.t) (T : ref) (delayMs : Z) (s : State),
    dryRun s = true ->
    isAlreadyPrinted (FormattedTask.id (heap T)) s = false ->
    let dry := printTasks env heap [T] delayMs s in
    fst dry = 1
    /\ printedTasks (snd dry) = printedTasks s
    /\ cacheFile (snd dry) = cacheFile s
    /\ fileWrites (snd dry) = fileWrites s
    /\ (exists evs,
          trace (snd dry) = (trace s ++ evs)%list /\ printInvocations evs = [])
    /\ forall (delayMs' : Z) (r : State),
         dryRun r = false ->
         printedTasks r = printedTasks (snd dry) ->
         let real := printTasks env heap [T] delayMs' r in
         (exists evs,
             trace (snd real) = (trace r ++ evs)%list
             /\ printInvocations evs = [heap T])
         /\ (device env (deviceCalls r) = Printed ->
             fst real = 1
             /\ isAlreadyPrinted (FormattedTask.id (heap T)) (snd real) = true).
Proof.
  intros env heap T delayMs s Hdry Hnew dry.
  destruct (iteration_dryRun env heap [T] delayMs T 0 s Hdry)
    as (Hc & _ & Hp & Hf & _ & Hw & evs & Ht & Hi & _).
  unfold isAlreadyPrinted in Hnew. rewrite Hnew in Hc.
  unfold dry. rewrite printTasks_single.
  split_conj; try assumption.
  - now exists evs.
  - intros delayMs' r Hreal Hsame.
    assert (Hnew' : Set_has (FormattedTask.id (heap T)) (printedTasks r) = false)
      by now rewrite Hsame, Hp.
    rewrite printTasks_single. split.
    + now apply iteration_real_invokes.
    + intros Hdev.
      destruct (iteration_printed env heap [T] delayMs' T 0 r Hreal Hnew' Hdev)
        as (Hc' & Hp' & _).
      split; [exact Hc'|].
      unfold isAlreadyPrinted. rewrite Hp'. apply Set_has_add_same.
Qed.

Lemma dryRun_does_not_suppress_print_witness :
  dryRun (Examples.withCache true ["T1"]) = true
  /\ isAlreadyPrinted (FormattedTask.id (Examples.heap 2)) (Examples.withCache true ["T1"])
     = false
  /\ fst (printTasks Examples.allFine Examples.heap [2] 1000
            (Examples.withCache true ["T1"])) = 1.
Proof.
  split; [reflexivity|]. split; [reflexivity|].
  exact (proj1 (dryRun_does_not_suppress_print Examples.allFine Examples.heap 2 1000
                  (Examples.withCache true ["T1"]) eq_refl eq_refl)).
Defined.

(** *** Failure of the printer *)

Section FailureFacts.
Variable env : Env.
Variable heap : ref -> FormattedTask.t.

Lemma iteration_mode (tasks : list ref) (d : Z) (task : ref) (c : nat) (s : State) :
  dryRun (snd (iteration env heap tasks d task c s)) = dryRun s.
Proof.
  destruct s. unfold_service. split_tests; reflexivity.
Qed.



End FailureFacts.



(** A batch of three, the printer failing on the second task only. *)
Example printTasks_failure_scenario :
  let env := {| device := fun n => if Nat.eqb n 1 then OpenError "LIBUSB_ERROR_ACCESS"
                                   else Printed;
                writeFileSync := fun _ => None;
                readFileSync := fun _ => None |} in
  let result := printTasks env Examples.heap [1; 2; 3] 1000 (Examples.fresh false) in
  fst result = 2
  /\ printedTasks (snd result) = ["T1"; "T3"]
  /\ cacheFile (snd result) = Some (JsonArray ["T1"; "T3"])
  /\ sleeps (trace (snd result)) = [1000%Z]
  /\ In (ConsoleError "[ERROR] Failed to print T2: LIBUSB_ERROR_ACCESS")
        (trace (snd result)).
Proof.
  cbv zeta. split_conj; vm_compute; try reflexivity.
  do 5 right. left. reflexivity.
Qed.

(** *** The delay between prints *)

Section DelayFacts.
Variable env : Env.
Variable heap : ref -> FormattedTask.t.

Lemma indexOfFrom_first (pre post : list ref) (T : ref) :
  forall i : Z,
    ~ In T pre ->
    indexOfFrom i (pre ++ T :: post)%list T = (i + Z.of_nat (List.length pre))%Z.
Proof.
  induction pre as [|x pre IH]; intros i Hnotin; simpl.
  - rewrite Nat.eqb_refl. lia.
  - destruct (Nat.eqb x T) eqn:Hx.
    + apply Nat.eqb_eq in Hx. exfalso. apply Hnotin. now left.
    + rewrite IH; [lia|]. intros Hin. apply Hnotin. now right.
Qed.

(** With pairwise distinct objects, [indexOf] is the position of the
    current task, and the test of the loop asks whether a task follows. *)
Lemma followed_test (pre post : list ref) (T : ref) :
  NoDup (pre ++ T :: post)%list ->
  (indexOf (pre ++ T :: post)%list T
   <? Z.of_nat (List.length (pre ++ T :: post)%list) - 1)%Z
  = negb (Nat.eqb (List.length post) 0).
Proof.
  intros Hnd. apply NoDup_remove_2 in Hnd.
  unfold indexOf. rewrite indexOfFrom_first.
  - rewrite length_app. simpl.
    destruct post as [|y post]; simpl.
    + apply Z.ltb_ge. lia.
    + apply Z.ltb_lt. lia.
  - intros Hin. apply Hnd, in_or_app. now left.
Qed.

Lemma printTask_never_sleeps (task : FormattedTask.t) (s : State) :
  exists evs,
    trace (snd (printTask env task s)) = (trace s ++ evs)%list
    /\ sleeps evs = [].
Proof.
  destruct s. unfold_service.
  split_tests; normalize_trace; eexists; split; reflexivity.
Qed.
End DelayFacts.

(** C7, as the code has it.  In a batch of pairwise distinct task objects,
    the turn of the loop at a task ends with a wait of [delayMs] exactly
    when the task was printed (or simulated) and another task follows it;
    the turn contains no other wait.  So the next task is processed without
    delay after a skipped or failed task, and nothing is awaited after the
    last task.  The count goes up exactly when the task was printed. *)
Theorem iteration_waits_after_print_only :
  forall (env : Env) (heap : ref -> FormattedTask.t)
         (pre post : list ref) (T : ref) (delayMs : Z) (c : nat) (s : State),
    NoDup (pre ++ T :: post)%list ->
    let tasks := (pre ++ T :: post)%list in
    let printed :=
      match fst (printTask env (heap T) s) with
      | Resolved true => true
      | _ => false
      end in
    let waits := printed && negb (Nat.eqb (List.length post) 0) in
    let turn := iteration env heap tasks delayMs T c s in
    fst turn = (if printed then S c else c)
    /\ exists evs,
         trace (snd turn)
         = (trace s ++ evs ++ if waits then [Sleep delayMs] else [])%list
         /\ sleeps evs = [].
Proof.
  intros env heap pre post T delayMs c s Hnd tasks printed waits turn.
  unfold turn, waits, printed, iteration.
  unfold tasks. rewrite (followed_test pre post T Hnd).
  destruct (printTask_never_sleeps env (heap T) s) as (evs & Ht & Hs).
  destruct (printTask env (heap T) s) as [[[|]|msg] s1]; simpl in *.
  - split; [now destruct (Nat.eqb (List.length post) 0)|].
    exists evs. split; [|assumption].
    destruct (Nat.eqb (List.length post) 0); simpl.
    + now rewrite app_nil_r.
    + now rewrite Ht, app_assoc.
  - split; [reflexivity|]. exists evs. split; [|assumption].
    now rewrite app_nil_r.
  - split; [reflexivity|].
    exists (evs ++ [ConsoleError ("[ERROR] Failed to print "
                                  ++ FormattedTask.id (heap T) ++ ": " ++ msg)])%list.
    split.
    + now rewrite Ht, app_nil_r, app_assoc.
    + unfold sleeps in *. now rewrite flat_map_app, Hs.
Qed.

Lemma iteration_waits_after_print_only_witness :
  NoDup ([1] ++ 2 :: [3])%list
  /\ fst (iteration Examples.allFine Examples.heap ([1] ++ 2 :: [3])%list 1000 2 1
            (Examples.withCache false ["T1"]))
     = 2.
Proof.
  assert (Hnd : NoDup ([1] ++ 2 :: [3])%list).
  { simpl. repeat constructor; simpl; intuition discriminate. }
  split; [exact Hnd|].
  exact (proj1 (iteration_waits_after_print_only Examples.allFine Examples.heap
                  [1] [3] 2 1000 1 (Examples.withCache false ["T1"]) Hnd)).
Defined.

(** Against C7 as the specification words it: in the batch [[1; 2]] with the id of the
    first task already cached, the second task follows the first one, and
    yet the dispatch contains no wait at all. *)
Lemma no_wait_after_skipped_task :
  let s := Examples.withCache false ["T1"] in
  let result := printTasks Examples.allFine Examples.heap [1; 2] 1000 s in
  isAlreadyPrinted (FormattedTask.id (Examples.heap 1)) s = true
  /\ printInvocations (trace (snd result)) = [Examples.heap 2]
  /\ sleeps (trace (snd result)) = [].
Proof. cbv zeta. split_conj; vm_compute; reflexivity. Qed.

(* ================================================================== *)
(** * Properties of the dedup cache *)

Section CacheFacts.
Variable env : Env.
Variable heap : ref -> FormattedTask.t.

Lemma markPrinted_in_memory (taskId : string) (s : State) :
  fst (markPrinted env taskId s) = Resolved tt
  /\ printedTasks (snd (markPrinted env taskId s)) = Set_add taskId (printedTasks s)
  /\ fileReads (snd (markPrinted env taskId s)) = fileReads s.
Proof.
  destruct s. unfold_service. split_tests; split_conj; reflexivity.
Qed.

Lemma markPrinted_persists (taskId : string) (s : State) :
  writeFileSync env (fileWrites s) = None ->
  cacheFile (snd (markPrinted env taskId s))
  = Some (JsonArray (Set_add taskId (printedTasks s))).
Proof.
  destruct s. simpl. intros Hw. unfold_service. now rewrite Hw.
Qed.

Lemma new_loads (dry : bool) (ids : list string) (w : State) (x : string) :
  cacheFile w = Some (JsonArray ids) ->
  readFileSync env (fileReads w) = None ->
  Set_has x ids = true ->
  Set_has x (printedTasks (new env dry w)) = true.
Proof.
  destruct w. simpl. intros -> Hr Hx. unfold new. unfold_service.
  rewrite Hr. simpl. now apply fold_Set_add_loads.
Qed.

Lemma clearCache_empties (s : State) :
  printedTasks (snd (clearCache env s)) = []
  /\ (writeFileSync env (fileWrites s) = None ->
      cacheFile (snd (clearCache env s)) = Some (JsonArray [])).
Proof.
  destruct s. unfold_service. split_tests; split_conj; try reflexivity; intros [=].
Qed.

(** Every operation but [clearCache] keeps an id that is in the set, the
    test ticket's id under [printTest] apart; and keeps it on file too. *)
Lemma run_keeps (op : Operations.Op) (s : State) (x : string) :
  Operations.isClearCache op = false ->
  x <> FormattedTask.id testTask \/ Operations.isPrintTest op = false ->
  Set_has x (printedTasks s) = true ->
  Set_has x (printedTasks (Operations.run env heap op s)) = true
  /\ (Operations.persisted x s = true ->
      Operations.persisted x (Operations.run env heap op s) = true).
Proof.
  intros Hclear Htest Hx.
  destruct op; simpl in *; try discriminate.
  - (* loadPrintedTasks *)
    destruct s. unfold Operations.persisted. simpl in *. unfold_service.
    destruct cacheFile0 as [[ids|msg]|]; simpl; split_tests;
      split; auto with printed.
  - (* savePrintedTasks *)
    destruct s. unfold Operations.persisted. simpl in *. unfold_service.
    split_tests; split; auto.
  - (* markPrinted *)
    destruct s. unfold Operations.persisted. simpl in *. unfold_service.
    split_tests; split; auto with printed.
  - (* printTask *)
    destruct s. unfold Operations.persisted. simpl in *. unfold_service.
    split_tests; split; auto with printed.
  - (* printTest *)
    destruct Htest as [Hne | Habs]; [|discriminate].
    assert (Hdel : Set_has x (Set_delete "T00000" (printedTasks s)) = true)
      by now apply Set_has_delete_other.
    destruct s. unfold Operations.persisted. simpl in *. unfold_service.
    split_tests; split; auto with printed.
  - (* printTasks *)
    now apply loop_keeps.
Qed.

Lemma runAll_keeps (ops : list Operations.Op) (x : string) :
  forall s : State,
    forallb (fun op => negb (Operations.isClearCache op)) ops = true ->
    x <> FormattedTask.id testTask
    \/ forallb (fun op => negb (Operations.isPrintTest op)) ops = true ->
    Set_has x (printedTasks s) = true ->
    Set_has x (printedTasks (Operations.runAll env heap ops s)) = true
    /\ (Operations.persisted x s = true ->
        Operations.persisted x (Operations.runAll env heap ops s) = true).
Proof.
  induction ops as [|op ops IH]; intros s Hclear Htest Hx; simpl; [tauto|].
  simpl in Hclear. apply andb_true_iff in Hclear as [Hop Hops].
  apply negb_true_iff in Hop.
  assert (Htest1 : x <> FormattedTask.id testTask \/ Operations.isPrintTest op = false).
  { destruct Htest as [H | H]; [now left | right].
    simpl in H. apply andb_true_iff in H as [H _]. now apply negb_true_iff. }
  assert (Htest2 : x <> FormattedTask.id testTask
                   \/ forallb (fun o => negb (Operations.isPrintTest o)) ops = true).
  { destruct Htest as [H | H]; [now left | right].
    simpl in H. now apply andb_true_iff in H as [_ H]. }
  destruct (run_keeps op s x Hop Htest1 Hx) as [H1 H2].
  destruct (IH (Operations.run env heap op s) Hops Htest2 H1) as [H3 H4].
  auto.
Qed.
End CacheFacts.

(** C6, as the code has it.  Along any sequence of operations of the
    printer service that contains no [clearCache], an id that is in the
    in-memory set stays in it, and stays in the persisted array if it was
    there, provided the id is not the test ticket's [T00000] or the sequence
    contains no [printTest]. *)
Theorem cache_keeps_ids_without_clear :
  forall (env : Env) (heap : ref -> FormattedTask.t)
         (ops : list Operations.Op) (s : State) (taskId : string),
    forallb (fun op => negb (Operations.isClearCache op)) ops = true ->
    taskId <> FormattedTask.id testTask
    \/ forallb (fun op => negb (Operations.isPrintTest op)) ops = true ->
    isAlreadyPrinted taskId s = true ->
    isAlreadyPrinted taskId (Operations.runAll env heap ops s) = true
    /\ (Operations.persisted taskId s = true ->
        Operations.persisted taskId (Operations.runAll env heap ops s) = true).
Proof.
  intros env heap ops s taskId Hclear Htest Hin.
  now apply runAll_keeps.
Qed.

Lemma cache_keeps_ids_without_clear_witness :
  let ops := [Operations.PrintTest; Operations.PrintTasks [1; 2] 1000;
              Operations.MarkPrinted "T9"; Operations.LoadPrintedTasks] in
  isAlreadyPrinted "T7"
    (Operations.runAll Examples.printerOff Examples.heap ops
       (Examples.withCache false ["T7"; "T00000"])) = true.
Proof.
  intros ops.
  refine (proj1 (cache_keeps_ids_without_clear Examples.printerOff Examples.heap ops
                   (Examples.withCache false ["T7"; "T00000"]) "T7" _ _ _)).
  - reflexivity.
  - left. discriminate.
  - reflexivity.
Defined.

(** Against C6 as the specification words it: [printTest] is not the clear-cache
    operation, and it removes [T00000] from the in-memory set; with the
    printer failing the id is not put back. *)
Lemma printTest_removes_test_id :
  let s := Examples.withCache false ["T7"; "T00000"] in
  let s' := Operations.run Examples.printerOff Examples.heap Operations.PrintTest s in
  Operations.isClearCache Operations.PrintTest = false
  /\ isAlreadyPrinted "T00000" s = true
  /\ isAlreadyPrinted "T00000" s' = false
  /\ printedTasks s' = ["T7"].
Proof. cbv zeta. split_conj; vm_compute; reflexivity. Qed.

(** C3, as the code has it.  For every id and every state of the outside
    world, [markPrinted] returns normally, the in-memory set is the former
    one with the id added, and the id is in it.  When the write to the
    file throws, the file is left as it was and one warning with the
    error's message is logged.  When the write succeeds, nothing is
    logged, the file holds the full set with the id, and a service
    constructed afterwards, whose read of the file succeeds, holds a set
    containing the id. *)
Theorem markPrinted_then_reload :
  forall (env : Env) (taskId : string) (s : State),
    let s' := snd (markPrinted env taskId s) in
    fst (markPrinted env taskId s) = Resolved tt
    /\ printedTasks s' = Set_add taskId (printedTasks s)
    /\ isAlreadyPrinted taskId s' = true
    /\ match writeFileSync env (fileWrites s) with
       | Some msg =>
           cacheFile s' = cacheFile s
           /\ trace s'
              = (trace s
                 ++ [ConsoleWarn ("Could not save printed tasks cache: " ++ msg)])%list
       | None =>
           cacheFile s' = Some (JsonArray (printedTasks s'))
           /\ In taskId (printedTasks s')
           /\ trace s' = trace s
           /\ (readFileSync env (fileReads s) = None ->
               forall dry : bool,
                 isAlreadyPrinted taskId (new env dry s') = true)
       end.
Proof.
  intros env taskId s s'.
  destruct (markPrinted_in_memory env taskId s) as (Hres & Hmem & Hreads).
  fold s' in Hmem, Hreads.
  assert (Hhas : Set_has taskId (printedTasks s') = true).
  { rewrite Hmem. apply Set_has_add_same. }
  split; [assumption|]. split; [assumption|]. split; [assumption|].
  destruct (writeFileSync env (fileWrites s)) as [msg|] eqn:Hw.
  - unfold s'. destruct s. simpl in Hw. unfold_service. rewrite Hw. simpl.
    split; reflexivity.
  - assert (Hfile : cacheFile s' = Some (JsonArray (printedTasks s'))).
    { rewrite Hmem. unfold s'. now apply markPrinted_persists. }
    split; [assumption|].
    split; [now apply Set_has_In|].
    split.
    + unfold s'. destruct s. simpl in Hw. unfold_service. rewrite Hw. reflexivity.
    + intros Hr dry. unfold isAlreadyPrinted.
      apply (new_loads env dry (printedTasks s') s' taskId Hfile); [|assumption].
      now rewrite Hreads.
Qed.

(** A successful write, then a restart: the id is on file and is loaded. *)
Lemma markPrinted_then_reload_witness :
  let s' := snd (markPrinted Examples.allFine "T5" (Examples.withCache false ["T1"])) in
  cacheFile s' = Some (JsonArray ["T1"; "T5"])
  /\ isAlreadyPrinted "T5" (new Examples.allFine false s') = true.
Proof.
  cbv zeta.
  pose proof (markPrinted_then_reload Examples.allFine "T5"
                (Examples.withCache false ["T1"])) as H.
  cbv zeta in H. destruct H as (_ & Hmem & _ & H).
  change (writeFileSync Examples.allFine
            (fileWrites (Examples.withCache false ["T1"])))
    with (@None string) in H.
  cbv iota in H.
  destruct H as (Hfile & _ & _ & Hload).
  split.
  - rewrite Hfile, Hmem. reflexivity.
  - exact (Hload eq_refl false).
Defined.

(** Against C3 as the specification words it: when the write to the file throws,
    [markPrinted] returns all the same, and a service constructed
    afterwards does not hold the id. *)
Lemma markPrinted_lost_when_write_fails :
  let s := Examples.withCache false ["T1"] in
  let marked := markPrinted Examples.readOnlyDisk "T5" s in
  fst marked = Resolved tt
  /\ isAlreadyPrinted "T5" (snd marked) = true
  /\ cacheFile (snd marked) = Some (JsonArray ["T1"])
  /\ printedTasks (new Examples.readOnlyDisk false (snd marked)) = ["T1"]
  /\ isAlreadyPrinted "T5" (new Examples.readOnlyDisk false (snd marked)) = false.
Proof. cbv zeta. split_conj; vm_compute; reflexivity. Qed.

(* ================================================================== *)
(** * Further properties of the printer service *)

(** *** [truncate] *)

Lemma length_append (a b : string) :
  String.length (a ++ b) = (String.length a + String.length b)%nat.
Proof. induction a as [|c a IH]; simpl; [reflexivity | now rewrite IH]. Qed.

Lemma length_substring0 (n : nat) (s : string) :
  String.length (Js.substring0 n s) = Nat.min n (String.length s).
Proof.
  unfold Js.substring0. revert s.
  induction n as [|n IH]; intros [|c s]; simpl; try reflexivity.
  now rewrite IH.
Qed.

Lemma substring0_prefix (n : nat) (s : string) :
  exists rest, s = Js.substring0 n s ++ rest.
Proof.
  unfold Js.substring0. revert s.
  induction n as [|n IH]; intros [|c s]; simpl.
  - now exists "".
  - now exists (String c s).
  - now exists "".
  - destruct (IH s) as [rest H]. exists rest. now rewrite <- H.
Qed.

(** X1.  [truncate] with room for the ellipsis ([maxLen] at least 3): the
    result never exceeds [maxLen] code units; a string that fits is
    returned as it is; a longer one is cut to its first [maxLen - 3] code
    units followed by three dots, [maxLen] code units in all. *)
Theorem truncate_fits :
  forall (str : string) (maxLen : nat),
    3 <= maxLen ->
    String.length (truncate str maxLen) <= maxLen
    /\ (String.length str <= maxLen -> truncate str maxLen = str)
    /\ (maxLen < String.length str ->
        String.length (truncate str maxLen) = maxLen
        /\ exists rest,
             truncate str maxLen = Js.substring0 (maxLen - 3) str ++ "..."
             /\ str = Js.substring0 (maxLen - 3) str ++ rest).
Proof.
  intros str maxLen Hmax. unfold truncate.
  destruct (String.eqb_spec str "") as [-> | Hne]; simpl.
  - split_conj; [lia | reflexivity | lia].
  - destruct (Nat.ltb_spec maxLen (String.length str)) as [Hlong | Hfits].
    + assert (Hlen : String.length (Js.substring0 (maxLen - 3) str ++ "...") = maxLen).
      { rewrite length_append, length_substring0. simpl. lia. }
      split_conj; [lia | lia | intros _].
      split; [exact Hlen|].
      destruct (substring0_prefix (maxLen - 3) str) as [rest Hrest].
      exists rest. split; [reflexivity | exact Hrest].
    + split_conj; [exact Hfits | reflexivity | lia].
Qed.

Lemma truncate_fits_witness :
  3 <= 10
  /\ String.length (truncate "Fix login button alignment" 10) <= 10.
Proof.
  split; [lia|].
  refine (proj1 (truncate_fits "Fix login button alignment" 10 _)). lia.
Defined.

(** *** The set holds each id once *)

Lemma NoDup_snoc {A} (l : list A) (x : A) :
  NoDup l -> ~ In x l -> NoDup (l ++ [x])%list.
Proof.
  induction l as [|y l IH]; simpl; intros Hnd Hx.
  - constructor; [intros [] | constructor].
  - inversion Hnd as [|? ? Hy Hl]; subst. constructor.
    + intros Hin. apply in_app_or in Hin as [Hin | [-> | []]]; tauto.
    + apply IH; tauto.
Qed.

Lemma NoDup_Set_add (x : string) (s : list string) :
  NoDup s -> NoDup (Set_add x s).
Proof.
  intros Hnd. unfold Set_add. destruct (Set_has x s) eqn:H; [assumption|].
  apply NoDup_snoc; [assumption|]. rewrite <- Set_has_In. congruence.
Qed.

Lemma NoDup_Set_delete (x : string) (s : list string) :
  NoDup s -> NoDup (Set_delete x s).
Proof. intros Hnd. unfold Set_delete. now apply NoDup_filter. Qed.

Lemma NoDup_fold_Set_add (data acc : list string) :
  NoDup acc -> NoDup (fold_left (fun a i => Set_add i a) data acc).
Proof.
  revert acc. induction data as [|y data IH]; intros acc H; simpl; [assumption|].
  apply IH. now apply NoDup_Set_add.
Qed.

Lemma fold_Set_add_fresh (data acc : list string) :
  NoDup (acc ++ data)%list ->
  fold_left (fun a i => Set_add i a) data acc = (acc ++ data)%list.
Proof.
  revert acc. induction data as [|y data IH]; intros acc Hnd; simpl.
  - now rewrite app_nil_r.
  - assert (Hy : Set_has y acc = false).
    { destruct (Set_has y acc) eqn:H; [|reflexivity].
      apply Set_has_In in H. apply NoDup_remove_2 in Hnd.
      exfalso. apply Hnd, in_or_app. now left. }
    unfold Set_add at 2. rewrite Hy.
    rewrite IH; rewrite <- app_assoc; simpl; [reflexivity | assumption].
Qed.

#[local] Hint Resolve NoDup_Set_add NoDup_Set_delete NoDup_fold_Set_add NoDup_nil
  : printed.

(** *** Loading, saving and clearing *)

Lemma fold_Set_add_has (x : string) (data acc : list string) :
  Set_has x (fold_left (fun a i => Set_add i a) data acc)
  = Set_has x acc || Set_has x data.
Proof.
  revert acc. induction data as [|y data IH]; intros acc; simpl.
  - now rewrite orb_false_r.
  - rewrite IH. unfold Set_has at 3. simpl.
    destruct (String.eqb_spec x y) as [-> | Hne].
    + now rewrite Set_has_add_same, orb_true_r.
    + now rewrite Set_has_add_other.
Qed.

(** X2.  The constructor's load.  Without a cache file the set starts empty
    and nothing is logged.  When the read throws, or the content is not a
    JSON array, the set starts empty and the error is logged as a warning.
    Otherwise the set holds exactly the ids of the array, each once, and
    their number is logged.  The file itself is never touched. *)
Theorem new_loads_file_or_starts_empty :
  forall (env : Env) (dry : bool) (w : State),
    let s := new env dry w in
    dryRun s = dry
    /\ cacheFile s = cacheFile w
    /\ NoDup (printedTasks s)
    /\ match cacheFile w with
       | None => printedTasks s = [] /\ trace s = trace w
       | Some c =>
           match readFileSync env (fileReads w), c with
           | Some msg, _ | None, Malformed msg =>
               printedTasks s = []
               /\ trace s = (trace w ++ [ConsoleWarn
                    ("Could not load printed tasks cache: " ++ msg)])%list
           | None, JsonArray ids =>
               (forall x, Set_has x (printedTasks s) = Set_has x ids)
               /\ trace s = (trace w ++ [ConsoleLog
                    ("Loaded " ++ Js.numberToString (Z.of_nat (List.length (printedTasks s)))
                     ++ " previously printed tasks")])%list
           end
       end.
Proof.
  intros env dry w. destruct w as [wd wp wf wt wn ww wr].
  unfold new. unfold_service.
  destruct wf as [[ids|msg]|]; simpl;
    destruct (readFileSync env wr) as [err|]; simpl;
    split_conj; try reflexivity; auto with printed.
  intros x. now rewrite fold_Set_add_has.
Qed.

(** X3.  Saving and constructing a new service gives back the very same set,
    in the same order, when the write and the read succeed. *)
Theorem save_then_new_roundtrip :
  forall (env : Env) (dry : bool) (s : State),
    NoDup (printedTasks s) ->
    writeFileSync env (fileWrites s) = None ->
    readFileSync env (fileReads s) = None ->
    printedTasks (new env dry (snd (savePrintedTasks env s))) = printedTasks s.
Proof.
  intros env dry [sd sp sf st sn sw sr]. simpl. intros Hnd Hw Hr.
  unfold new. unfold_service. rewrite Hw. simpl. rewrite Hr. simpl.
  now apply (fold_Set_add_fresh sp []).
Qed.

Lemma save_then_new_roundtrip_witness :
  printedTasks (new Examples.allFine true
                  (snd (savePrintedTasks Examples.allFine
                          (mkState false ["T3"; "T1"] None [] 0 0 0))))
  = ["T3"; "T1"].
Proof.
  refine (save_then_new_roundtrip Examples.allFine true
            (mkState false ["T3"; "T1"] None [] 0 0 0) _ _ _);
    try reflexivity.
  simpl. repeat constructor; simpl; intuition discriminate.
Defined.

(** X4.  [clearCache] leaves no id in the in-memory set.  When its write
    succeeds the file holds the empty array and every service constructed
    afterwards starts with an empty set; when its write throws, the file
    keeps its former content. *)
Theorem clearCache_resets :
  forall (env : Env) (s : State),
    let s' := snd (clearCache env s) in
    fst (clearCache env s) = Resolved tt
    /\ (forall x, isAlreadyPrinted x s' = false)
    /\ match writeFileSync env (fileWrites s) with
       | None =>
           cacheFile s' = Some (JsonArray [])
           /\ forall dry, printedTasks (new env dry s') = []
       | Some _ => cacheFile s' = cacheFile s
       end.
Proof.
  intros env [sd sp sf st sn sw sr]. unfold new. unfold_service.
  destruct (writeFileSync env sw) as [msg|]; simpl; split_conj; try reflexivity.
  intros dry. destruct (readFileSync env sr); reflexivity.
Qed.

(** *** [printTest] *)

Lemma Set_has_delete_neq (x y : string) (s : list string) :
  x <> y -> Set_has x (Set_delete y s) = Set_has x s.
Proof.
  intros Hx. unfold Set_has, Set_delete. induction s as [|z s IH]; simpl.
  - reflexivity.
  - destruct (String.eqb_spec y z) as [<- | Hy]; simpl.
    + apply String.eqb_neq in Hx. now rewrite Hx.
    + now rewrite IH.
Qed.

(** X5.  In real mode [printTest] hands the test ticket to the printer exactly
    once, whether or not its id is cached; no other id enters or leaves the
    set; the test id is in the set afterwards exactly when the printer
    succeeded. *)
Theorem printTest_bypasses_cache :
  forall (env : Env) (s : State),
    dryRun s = false ->
    let r := printTest env s in
    (exists evs,
        trace (snd r) = (trace s ++ evs)%list
        /\ printInvocations evs = [testTask])
    /\ (forall x, x <> "T00000" ->
          isAlreadyPrinted x (snd r) = isAlreadyPrinted x s)
    /\ isAlreadyPrinted "T00000" (snd r)
       = match device env (deviceCalls s) with Printed => true | _ => false end
    /\ match device env (deviceCalls s) with
       | Printed => fst r = Resolved true
       | DeviceUnavailable msg | OpenError msg | PrintError msg => fst r = Rejected msg
       end.
Proof.
  intros env [sd sp sf st sn sw sr]. simpl. intros ->.
  assert (Hdel : Set_has "T00000" (Set_delete "T00000" sp) = false)
    by apply Set_has_delete_same.
  assert (Hother : forall x, x <> "T00000" ->
            Set_has x (Set_delete "T00000" sp) = Set_has x sp)
    by (intros x Hx; now apply Set_has_delete_neq).
  unfold printTest, printTask, isAlreadyPrinted. unfold bind at 1. simpl.
  rewrite Hdel. unfold_service.
  destruct (device env sn) as [msg|msg|msg|]; simpl; split_tests; normalize_trace;
    try congruence;
    split_conj; try reflexivity;
    try (eexists; split; reflexivity);
    try (intros x Hx; rewrite ?Set_has_add_other by assumption; now apply Hother);
    try assumption; try apply Set_has_add_same.
Qed.

Lemma printTest_bypasses_cache_witness :
  dryRun (Examples.withCache false ["T00000"]) = false
  /\ isAlreadyPrinted "T00000"
       (snd (printTest Examples.allFine (Examples.withCache false ["T00000"]))) = true.
Proof.
  split; [reflexivity|].
  exact (proj1 (proj2 (proj2 (printTest_bypasses_cache Examples.allFine
                                (Examples.withCache false ["T00000"]) eq_refl)))).
Defined.

(* ================================================================== *)
(** * At most one ticket per id *)

Import Delivery.

Lemma printedIds_app (evs1 evs2 : list Event) :
  printedIds (evs1 ++ evs2)%list = (printedIds evs1 ++ printedIds evs2)%list.
Proof. unfold printedIds. apply flat_map_app. Qed.

Lemma Delivers_refl (s : State) : Delivers s s [].
Proof.
  unfold Delivers. simpl. split_conj.
  - now rewrite app_nil_r.
  - constructor.
  - intros x [].
  - auto.
Qed.

Lemma Delivers_trans (s s1 s2 : State) (evs1 evs2 : list Event) :
  Delivers s s1 evs1 -> Delivers s1 s2 evs2 -> Delivers s s2 (evs1 ++ evs2)%list.
Proof.
  intros (Ht1 & Hn1 & Hp1 & Hk1) (Ht2 & Hn2 & Hp2 & Hk2).
  unfold Delivers. rewrite printedIds_app. split_conj.
  - now rewrite Ht2, Ht1, app_assoc.
  - apply NoDup_app; try assumption.
    intros x Hx1 Hx2.
    destruct (Hp1 x Hx1) as [_ Hin]. destruct (Hp2 x Hx2) as [Hout _]. congruence.
  - intros x Hx. apply in_app_or in Hx as [Hx | Hx].
    + destruct (Hp1 x Hx) as [Hout Hin]. auto.
    + destruct (Hp2 x Hx) as [Hout Hin]. split; [|assumption].
      destruct (Set_has x (printedTasks s)) eqn:H; [|reflexivity].
      apply Hk1 in H. congruence.
  - auto.
Qed.

Lemma PrintsOnce_compose (f g : State -> State) :
  PrintsOnce f -> PrintsOnce g -> PrintsOnce (fun s => g (f s)).
Proof.
  intros Hf Hg s. destruct (Hf s) as [evs1 H1]. destruct (Hg (f s)) as [evs2 H2].
  exists (evs1 ++ evs2)%list. now apply (Delivers_trans s (f s)).
Qed.

(** Events without a successful print, and a cache that only grew. *)
Lemma Delivers_quiet (s s' : State) (evs : list Event) :
  trace s' = (trace s ++ evs)%list ->
  printedIds evs = [] ->
  (forall x, Set_has x (printedTasks s) = true -> Set_has x (printedTasks s') = true) ->
  Delivers s s' evs.
Proof.
  intros Ht Hids Hk. unfold Delivers. rewrite Hids. split_conj; try assumption.
  - constructor.
  - intros x [].
Qed.

Section OnceFacts.
Variable env : Env.
Variable heap : ref -> FormattedTask.t.

(** One turn of the loop: either no ticket and the same set, or one
    ticket for an id that was not cached and is added to the set. *)
Lemma iteration_once (tasks : list ref) (d : Z) (task : ref) (c : nat) (s : State) :
  let r := iteration env heap tasks d task c s in
  exists evs,
    trace (snd r) = (trace s ++ evs)%list
    /\ ((printedIds evs = [] /\ printedTasks (snd r) = printedTasks s)
        \/ (printedIds evs = [FormattedTask.id (heap task)]
            /\ Set_has (FormattedTask.id (heap task)) (printedTasks s) = false
            /\ printedTasks (snd r)
               = Set_add (FormattedTask.id (heap task)) (printedTasks s)))
    /\ (if dryRun s then printedIds evs = []
        else fst r = (c + List.length (printedIds evs))%nat)
    /\ fst r <= S c.
Proof.
  destruct s as [sd sp sf st sn sw sr]. unfold_service.
  split_tests; normalize_trace; eexists; (split; [reflexivity|]); simpl;
    split_conj; try reflexivity; try lia;
    solve [left; split; reflexivity | right; split_conj; (reflexivity || assumption)].
Qed.

Lemma iteration_delivers (tasks : list ref) (d : Z) (task : ref) (c : nat) (s : State) :
  let r := iteration env heap tasks d task c s in
  exists evs,
    Delivers s (snd r) evs
    /\ (forall x, Set_has x (printedTasks (snd r)) = true ->
          Set_has x (printedTasks s) = true \/ In x (printedIds evs))
    /\ (if dryRun s then printedIds evs = []
        else fst r = (c + List.length (printedIds evs))%nat)
    /\ fst r <= S c.
Proof.
  intros r. destruct (iteration_once tasks d task c s) as (evs & Ht & Hcase & Hc & Hle).
  fold r in Ht, Hcase, Hc, Hle. exists evs. split_conj; try assumption.
  - destruct Hcase as [[Hids Hp] | (Hids & Hnew & Hp)].
    + apply Delivers_quiet; try assumption. intros x. now rewrite Hp.
    + unfold Delivers. rewrite Hids, Hp. split_conj.
      * assumption.
      * repeat constructor. intros [].
      * intros x [<- | []]. split; [assumption | apply Set_has_add_same].
      * intros x. apply Set_has_add_keeps.
  - intros x Hx. destruct Hcase as [[Hids Hp] | (Hids & Hnew & Hp)].
    + left. now rewrite <- Hp.
    + rewrite Hp in Hx. rewrite Hids.
      destruct (String.eqb_spec x (FormattedTask.id (heap task))) as [-> | Hne].
      * right. now left.
      * left. now rewrite Set_has_add_other in Hx.
Qed.

Lemma loop_delivers (tasks : list ref) (d : Z) (rest : list ref) :
  forall (c : nat) (s : State),
    let r := loop env heap tasks d rest c s in
    exists evs,
      Delivers s (snd r) evs
      /\ (forall x, Set_has x (printedTasks (snd r)) = true ->
            Set_has x (printedTasks s) = true \/ In x (printedIds evs))
      /\ (if dryRun s then printedIds evs = []
          else fst r = (c + List.length (printedIds evs))%nat)
      /\ fst r <= c + List.length rest.
Proof.
  induction rest as [|task rest IH]; intros c s; cbv zeta; simpl.
  - exists []. split_conj.
    + apply Delivers_refl.
    + auto.
    + destruct (dryRun s); simpl; [reflexivity | lia].
    + lia.
  - destruct (iteration_delivers tasks d task c s) as (evs1 & Hd1 & Ho1 & Hc1 & Hle1).
    pose proof (iteration_mode env heap tasks d task c s) as Hmode.
    destruct (iteration env heap tasks d task c s) as [c1 s1]. simpl in *.
    destruct (IH c1 s1) as (evs2 & Hd2 & Ho2 & Hc2 & Hle2).
    exists (evs1 ++ evs2)%list. split_conj.
    + now apply (Delivers_trans s s1).
    + intros x Hx. rewrite printedIds_app.
      destruct (Ho2 x Hx) as [H | H].
      * destruct (Ho1 x H) as [H' | H']; [now left | right].
        apply in_or_app. now left.
      * right. apply in_or_app. now right.
    + rewrite Hmode in Hc2. rewrite printedIds_app.
      destruct (dryRun s).
      * now rewrite Hc1, Hc2.
      * rewrite Hc2, Hc1, length_app. lia.
    + lia.
Qed.
End OnceFacts.

(** X6.  One dispatch.  The ids of the tickets that came out of the printer
    are pairwise distinct and none of them was cached at the start; the
    cache at the end is the cache at the start together with exactly these
    ids.  In real mode the returned count is the number of these tickets; in
    dry-run mode there is none.  The count never exceeds the batch size. *)
Theorem printTasks_delivers_once :
  forall (env : Env) (heap : ref -> FormattedTask.t)
         (tasks : list ref) (delayMs : Z) (s : State),
    let r := printTasks env heap tasks delayMs s in
    exists evs,
      trace (snd r) = (trace s ++ evs)%list
      /\ NoDup (printedIds evs)
      /\ (forall x, In x (printedIds evs) -> isAlreadyPrinted x s = false)
      /\ (forall x, isAlreadyPrinted x (snd r) = true
                    <-> isAlreadyPrinted x s = true \/ In x (printedIds evs))
      /\ (if dryRun s then printedIds evs = []
          else fst r = List.length (printedIds evs))
      /\ fst r <= List.length tasks.
Proof.
  intros env heap tasks delayMs s. cbv zeta. unfold printTasks.
  destruct (loop_delivers env heap tasks delayMs tasks 0 s)
    as (evs & (Ht & Hn & Hp & Hk) & Ho & Hc & Hle).
  exists evs. unfold isAlreadyPrinted. split_conj; try assumption.
  - intros x Hx. now destruct (Hp x Hx).
  - intros x. split; [apply Ho|]. intros [H | H]; [now apply Hk | now destruct (Hp x H)].
Qed.

(** A step that prints nothing and keeps the cached ids. *)
Ltac quiet_step :=
  first
    [ exists []; apply Delivers_quiet;
      [simpl; now rewrite app_nil_r | reflexivity | simpl; auto with printed]
    | eexists; apply Delivers_quiet;
      [simpl; reflexivity | reflexivity | simpl; auto with printed] ].

Section OnceOperations.
Variable env : Env.
Variable heap : ref -> FormattedTask.t.

Lemma printTask_delivers (task : FormattedTask.t) (s : State) :
  exists evs, Delivers s (snd (printTask env task s)) evs.
Proof.
  assert (H : exists evs,
             trace (snd (printTask env task s)) = (trace s ++ evs)%list
             /\ ((printedIds evs = [] /\ printedTasks (snd (printTask env task s))
                                         = printedTasks s)
                 \/ (printedIds evs = [FormattedTask.id task]
                     /\ Set_has (FormattedTask.id task) (printedTasks s) = false
                     /\ printedTasks (snd (printTask env task s))
                        = Set_add (FormattedTask.id task) (printedTasks s)))).
  { destruct s as [sd sp sf st sn sw sr]. unfold_service.
    split_tests; normalize_trace; eexists; (split; [reflexivity|]); simpl;
      solve [left; split; reflexivity | right; split_conj; (reflexivity || assumption)]. }
  destruct H as (evs & Ht & [[Hids Hp] | (Hids & Hnew & Hp)]); exists evs.
  - apply Delivers_quiet; try assumption. intros x. now rewrite Hp.
  - unfold Delivers. rewrite Hids, Hp. split_conj.
    + assumption.
    + repeat constructor. intros [].
    + intros x [<- | []]. split; [assumption | apply Set_has_add_same].
    + intros x. apply Set_has_add_keeps.
Qed.

Lemma quiet_operation_delivers (op : Operations.Op) (s : State) :
  match op with
  | Operations.LoadPrintedTasks | Operations.SavePrintedTasks
  | Operations.MarkPrinted _ => True
  | _ => False
  end ->
  exists evs, Delivers s (Operations.run env heap op s) evs.
Proof.
  destruct s as [sd sp sf st sn sw sr].
  destruct op; try contradiction; intros _; simpl; unfold_service.
  - destruct sf as [[ids|msg]|]; simpl; split_tests; normalize_trace; quiet_step.
  - split_tests; normalize_trace; quiet_step.
  - split_tests; normalize_trace; quiet_step.
Qed.

Lemma run_delivers (op : Operations.Op) (s : State) :
  Operations.isClearCache op = false ->
  Operations.isPrintTest op = false ->
  exists evs, Delivers s (Operations.run env heap op s) evs.
Proof.
  intros Hclear Htest. destruct op; try discriminate.
  - now apply quiet_operation_delivers.
  - now apply quiet_operation_delivers.
  - now apply quiet_operation_delivers.
  - apply printTask_delivers.
  - simpl. unfold printTasks.
    destruct (loop_delivers env heap tasks delayMs tasks 0 s) as (evs & H & _).
    now exists evs.
Qed.
End OnceOperations.

(** X7.  Along any sequence of operations of the printer service that contains
    neither [clearCache] nor [printTest], each id gets at most one ticket
    out of the printer, and only if it was not cached at the start; every
    printed id, like every id cached at the start, is cached at the end. *)
Theorem operations_print_each_id_once :
  forall (env : Env) (heap : ref -> FormattedTask.t) (ops : list Operations.Op),
    forallb (fun op => negb (Operations.isClearCache op)) ops = true ->
    forallb (fun op => negb (Operations.isPrintTest op)) ops = true ->
    PrintsOnce (Operations.runAll env heap ops).
Proof.
  intros env heap ops. induction ops as [|op ops IH]; intros Hclear Htest s.
  - exists []. apply Delivers_refl.
  - simpl in Hclear, Htest.
    apply andb_true_iff in Hclear as [Hc Hcs]. apply andb_true_iff in Htest as [Ht Hts].
    apply negb_true_iff in Hc, Ht.
    destruct (run_delivers env heap op s Hc Ht) as [evs1 H1].
    destruct (IH Hcs Hts (Operations.run env heap op s)) as [evs2 H2].
    exists (evs1 ++ evs2)%list. simpl.
    now apply (Delivers_trans s (Operations.run env heap op s)).
Qed.

Lemma operations_print_each_id_once_witness :
  PrintsOnce (Operations.runAll Examples.allFine Examples.heap
                [Operations.PrintTasks [1; 2; 1] 1000;
                 Operations.LoadPrintedTasks;
                 Operations.PrintTasks [2; 3] 0]).
Proof.
  apply operations_print_each_id_once; reflexivity.
Defined.

(* ================================================================== *)
(** * The waits of a dispatch *)

Lemma sleeps_app (evs1 evs2 : list Event) :
  sleeps (evs1 ++ evs2)%list = (sleeps evs1 ++ sleeps evs2)%list.
Proof. unfold sleeps. apply flat_map_app. Qed.

Lemma no_sleep_no_final_wait (evs : list Event) :
  sleeps evs = [] -> forall evs' ms, evs <> (evs' ++ [Sleep ms])%list.
Proof.
  intros Hs evs' ms ->. rewrite sleeps_app in Hs. simpl in Hs.
  now destruct (sleeps evs').
Qed.

Lemma final_wait_of_suffix (evs1 evs2 : list Event) :
  evs2 <> [] ->
  (forall evs' ms, evs2 <> (evs' ++ [Sleep ms])%list) ->
  forall evs' ms, (evs1 ++ evs2)%list <> (evs' ++ [Sleep ms])%list.
Proof.
  intros Hne Hlast evs' ms Heq.
  destruct (exists_last Hne) as (front & e & ->).
  rewrite app_assoc in Heq. apply app_inj_tail in Heq as [_ ->].
  now apply (Hlast front ms).
Qed.

Section WaitFacts.
Variable env : Env.
Variable heap : ref -> FormattedTask.t.

(** A turn emits something, waits at most once, for [delayMs], and only
    when it has counted the task. *)
Lemma iteration_waits (tasks : list ref) (d : Z) (task : ref) (c : nat) (s : State) :
  let r := iteration env heap tasks d task c s in
  exists evs,
    trace (snd r) = (trace s ++ evs)%list
    /\ evs <> []
    /\ (sleeps evs = [] /\ c <= fst r \/ sleeps evs = [d] /\ fst r = S c).
Proof.
  destruct s as [sd sp sf st sn sw sr]. unfold_service.
  split_tests; normalize_trace; eexists; (split; [reflexivity|]);
    (split; [discriminate|]); simpl;
    solve [left; split; [reflexivity | lia] | right; split; reflexivity].
Qed.

Lemma printTask_emits (task : FormattedTask.t) (s : State) :
  exists evs,
    trace (snd (printTask env task s)) = (trace s ++ evs)%list
    /\ evs <> []
    /\ sleeps evs = [].
Proof.
  destruct s. unfold_service.
  split_tests; normalize_trace; eexists; split_conj;
    try reflexivity; discriminate.
Qed.

(** The last task of a batch of distinct objects is not followed by a wait. *)
Lemma iteration_last_no_wait (pre : list ref) (d : Z) (task : ref) (c : nat) (s : State) :
  NoDup (pre ++ [task])%list ->
  exists evs,
    trace (snd (iteration env heap (pre ++ [task])%list d task c s))
    = (trace s ++ evs)%list
    /\ evs <> []
    /\ sleeps evs = [].
Proof.
  intros Hnd. unfold iteration. rewrite (followed_test pre [] task Hnd). simpl.
  destruct (printTask_emits (heap task) s) as (evs & Ht & Hne & Hs).
  destruct (printTask env (heap task) s) as [[[|]|msg] s1] eqn:Hp; simpl in *.
  - exists evs. now split_conj.
  - exists evs. now split_conj.
  - eexists. split_conj.
    + rewrite Ht, <- app_assoc. reflexivity.
    + now destruct evs.
    + rewrite sleeps_app, Hs. reflexivity.
Qed.

Lemma loop_waits (tasks : list ref) (d : Z) (rest : list ref) :
  forall (c : nat) (s : State),
    let r := loop env heap tasks d rest c s in
    exists evs,
      trace (snd r) = (trace s ++ evs)%list
      /\ Forall (eq d) (sleeps evs)
      /\ c + List.length (sleeps evs) <= fst r.
Proof.
  induction rest as [|task rest IH]; intros c s; cbv zeta; simpl.
  - exists []. split_conj; [now rewrite app_nil_r | constructor | simpl; lia].
  - destruct (iteration_waits tasks d task c s) as (evs1 & Ht1 & _ & Hw1).
    destruct (iteration env heap tasks d task c s) as [c1 s1]. simpl in *.
    destruct (IH c1 s1) as (evs2 & Ht2 & Hf2 & Hc2).
    exists (evs1 ++ evs2)%list. rewrite sleeps_app. split_conj.
    + now rewrite Ht2, Ht1, app_assoc.
    + apply Forall_app. split; [|assumption].
      destruct Hw1 as [[-> _] | [-> _]]; repeat constructor.
    + rewrite length_app. destruct Hw1 as [[-> Hc] | [-> Hc]]; simpl; lia.
Qed.

Lemma loop_no_final_wait (d : Z) (rest : list ref) :
  forall (pre : list ref) (c : nat) (s : State),
    NoDup (pre ++ rest)%list ->
    exists evs,
      trace (snd (loop env heap (pre ++ rest)%list d rest c s)) = (trace s ++ evs)%list
      /\ (rest <> [] -> evs <> [])
      /\ (forall evs' ms, evs <> (evs' ++ [Sleep ms])%list)
      /\ List.length (sleeps evs) <= pred (List.length rest).
Proof.
  induction rest as [|task rest IH]; intros pre c s Hnd.
  - exists []. simpl. split_conj.
    + now rewrite app_nil_r.
    + congruence.
    + intros evs' ms H. now destruct evs'.
    + lia.
  - destruct rest as [|next rest].
    + destruct (iteration_last_no_wait pre d task c s Hnd) as (evs & Ht & Hne & Hs).
      exists evs. simpl.
      destruct (iteration env heap (pre ++ [task])%list d task c s) as [c1 s1].
      simpl in *. split_conj; try assumption.
      * now intros _.
      * now apply no_sleep_no_final_wait.
      * rewrite Hs. simpl. lia.
    + assert (Hsplit : (pre ++ task :: next :: rest)%list
                       = ((pre ++ [task]) ++ next :: rest)%list)
        by now rewrite <- app_assoc.
      destruct (iteration_waits (pre ++ task :: next :: rest)%list d task c s)
        as (evs1 & Ht1 & Hne1 & Hw1).
      change (loop env heap (pre ++ task :: next :: rest)%list d (task :: next :: rest) c s)
        with (let '(c1, s1) :=
                iteration env heap (pre ++ task :: next :: rest)%list d task c s in
              loop env heap (pre ++ task :: next :: rest)%list d (next :: rest) c1 s1).
      destruct (iteration env heap (pre ++ task :: next :: rest)%list d task c s)
        as [c1 s1]. simpl in Ht1, Hw1.
      rewrite Hsplit in Hnd |- *.
      destruct (IH (pre ++ [task])%list c1 s1 Hnd) as (evs2 & Ht2 & Hne2 & Hl2 & Hb2).
      exists (evs1 ++ evs2)%list. split_conj.
      * now rewrite Ht2, Ht1, app_assoc.
      * intros _ H. apply app_eq_nil in H as [H _]. contradiction.
      * apply final_wait_of_suffix; [apply Hne2; discriminate | assumption].
      * rewrite sleeps_app, length_app. simpl in *.
        destruct Hw1 as [[-> _] | [-> _]]; simpl; lia.
Qed.
Lemma dispatch_no_final_wait (d : Z) (tasks : list ref) (c : nat) (s : State) :
  NoDup tasks ->
  exists evs,
    trace (snd (loop env heap tasks d tasks c s)) = (trace s ++ evs)%list
    /\ (forall evs' ms, evs <> (evs' ++ [Sleep ms])%list)
    /\ List.length (sleeps evs) <= pred (List.length tasks).
Proof.
  intros Hnd.
  destruct (loop_no_final_wait d tasks [] c s Hnd) as (evs & Ht & _ & Hl & Hb).
  now exists evs.
Qed.
End WaitFacts.

(** X8.  Every wait of a dispatch lasts [delayMs], and there are at most as
    many waits as counted tasks. *)
Theorem printTasks_waits_bounded :
  forall (env : Env) (heap : ref -> FormattedTask.t)
         (tasks : list ref) (delayMs : Z) (s : State),
    let r := printTasks env heap tasks delayMs s in
    exists evs,
      trace (snd r) = (trace s ++ evs)%list
      /\ Forall (eq delayMs) (sleeps evs)
      /\ List.length (sleeps evs) <= fst r.
Proof.
  intros env heap tasks delayMs s. cbv zeta. unfold printTasks.
  destruct (loop_waits env heap tasks delayMs tasks 0 s) as (evs & Ht & Hf & Hc).
  exists evs. now split_conj.
Qed.

(** X9.  A dispatch over pairwise distinct task objects never ends on a wait,
    and waits fewer times than there are tasks. *)
Theorem printTasks_no_final_wait :
  forall (env : Env) (heap : ref -> FormattedTask.t)
         (tasks : list ref) (delayMs : Z) (s : State),
    NoDup tasks ->
    exists evs,
      trace (snd (printTasks env heap tasks delayMs s)) = (trace s ++ evs)%list
      /\ (forall evs' ms, evs <> (evs' ++ [Sleep ms])%list)
      /\ List.length (sleeps evs) <= pred (List.length tasks).
Proof.
  intros env heap tasks delayMs s Hnd. unfold printTasks.
  destruct (loop_no_final_wait env heap delayMs tasks [] 0 s Hnd)
    as (evs & Ht & _ & Hl & Hb).
  exists evs. split_conj; assumption.
Qed.

Lemma printTasks_no_final_wait_witness :
  NoDup [1; 2; 3]
  /\ exists evs,
       trace (snd (printTasks Examples.allFine Examples.heap [1; 2; 3] 1000
                     (Examples.withCache false ["T3"])))
       = (trace (Examples.withCache false ["T3"]) ++ evs)%list
       /\ (forall evs' ms, evs <> (evs' ++ [Sleep ms])%list)
       /\ List.length (sleeps evs) <= pred (List.length [1; 2; 3]).
Proof.
  assert (Hnd : NoDup [1; 2; 3]).
  { repeat constructor; simpl; intuition discriminate. }
  split; [exact Hnd|].
  exact (printTasks_no_final_wait Examples.allFine Examples.heap [1; 2; 3] 1000
           (Examples.withCache false ["T3"]) Hnd).
Defined.

(** When the same object is twice in the batch, [indexOf] finds its first
    position: in dry-run mode the dispatch of [[1; 1]] ends on a wait. *)
Example printTasks_repeated_object_final_wait :
  exists evs',
    trace (snd (printTasks Examples.allFine Examples.heap [1; 1] 1000 (Examples.fresh true)))
    = (evs' ++ [Sleep 1000])%list.
Proof.
  exists (removelast
            (trace (snd (printTasks Examples.allFine Examples.heap [1; 1] 1000
                           (Examples.fresh true))))).
  vm_compute. reflexivity.
Qed.

(* ================================================================== *)
(** * The persisted array lists each id once *)

Section DistinctIds.
Variable env : Env.
Variable heap : ref -> FormattedTask.t.
Variable original : option FileContent.

Ltac keep_distinct :=
  split;
  [ simpl; auto with printed
  | first [ assumption
          | right; eexists; split; [reflexivity | simpl; auto with printed] ] ].

Lemma iteration_distinct (tasks : list ref) (d : Z) (task : ref) (c : nat) (s : State) :
  NoDup (printedTasks s) -> fileOk original s ->
  NoDup (printedTasks (snd (iteration env heap tasks d task c s)))
  /\ fileOk original (snd (iteration env heap tasks d task c s)).
Proof.
  unfold Delivery.fileOk. destruct s as [sd sp sf st sn sw sr]. simpl. intros Hnd Hfile.
  unfold_service. split_tests; keep_distinct.
Qed.

Lemma loop_distinct (tasks : list ref) (d : Z) (rest : list ref) :
  forall (c : nat) (s : State),
    NoDup (printedTasks s) -> fileOk original s ->
    NoDup (printedTasks (snd (loop env heap tasks d rest c s)))
    /\ fileOk original (snd (loop env heap tasks d rest c s)).
Proof.
  induction rest as [|task rest IH]; intros c s Hnd Hfile; simpl; [tauto|].
  destruct (iteration_distinct tasks d task c s Hnd Hfile) as [H1 H2].
  destruct (iteration env heap tasks d task c s) as [c1 s1]. now apply IH.
Qed.

Lemma run_distinct (op : Operations.Op) (s : State) :
  NoDup (printedTasks s) -> fileOk original s ->
  NoDup (printedTasks (Operations.run env heap op s))
  /\ fileOk original (Operations.run env heap op s).
Proof.
  intros Hnd Hfile. destruct op; simpl; try now apply loop_distinct.
  all: unfold Delivery.fileOk in *; destruct s as [sd sp sf st sn sw sr]; simpl in *;
    unfold_service.
  - destruct sf as [[ids|msg]|]; simpl; split_tests; keep_distinct.
  - split_tests; keep_distinct.
  - split_tests; keep_distinct.
  - split_tests; keep_distinct.
  - split_tests; keep_distinct.
  - split_tests; keep_distinct.
Qed.

Lemma runAll_distinct (ops : list Operations.Op) :
  forall s : State,
    NoDup (printedTasks s) -> fileOk original s ->
    NoDup (printedTasks (Operations.runAll env heap ops s))
    /\ fileOk original (Operations.runAll env heap ops s).
Proof.
  induction ops as [|op ops IH]; intros s Hnd Hfile; simpl; [tauto|].
  destruct (run_distinct op s Hnd Hfile). now apply IH.
Qed.
End DistinctIds.

Lemma new_distinct (env : Env) (dry : bool) (w : State) :
  cacheFile (new env dry w) = cacheFile w /\ NoDup (printedTasks (new env dry w)).
Proof.
  destruct w as [wd wp wf wt wn ww wr]. unfold new. unfold_service.
  destruct wf as [[ids|msg]|]; simpl; split_tests; split;
    try reflexivity; auto with printed.
Qed.

(** X10.  From its construction on, whatever the operations ([clearCache] and
    [printTest] included) and whatever fails, a service never writes an
    array with a repeated id: the cache file is either the file found at
    construction, untouched, or an array listing each id once. *)
Theorem cache_file_lists_each_id_once :
  forall (env : Env) (heap : ref -> FormattedTask.t) (dry : bool) (w : State)
         (ops : list Operations.Op),
    let s := Operations.runAll env heap ops (new env dry w) in
    NoDup (printedTasks s)
    /\ (cacheFile s = cacheFile w
        \/ exists ids, cacheFile s = Some (JsonArray ids) /\ NoDup ids).
Proof.
  intros env heap dry w ops.
  destruct (new_distinct env dry w) as [Hfile Hnd].
  apply (runAll_distinct env heap (cacheFile w)); [assumption | now left].
Qed.

(* ================================================================== *)
(** * Properties of the poll cycle *)

Section PollFacts.
Variable E : RegExpEngine.
Variable env : Env.
Variable cfg : PhabPrint.Settings.

Lemma log_delivers (line : string) (s : State) :
  Delivers s (PhabPrint.log line s) [ConsoleLog line].
Proof. apply Delivers_quiet; auto. Qed.

Lemma logError_delivers (line : string) (s : State) :
  Delivers s (PhabPrint.logError line s) [ConsoleError line].
Proof. apply Delivers_quiet; auto. Qed.

Lemma sameCore_log (line : string) (s : State) : sameCore s (PhabPrint.log line s).
Proof. apply sameCore_emit. Qed.

Lemma sameCore_logError (line : string) (s : State) :
  sameCore s (PhabPrint.logError line s).
Proof. apply sameCore_emit. Qed.

(** The shape of a cycle that reaches the dispatcher. *)
Lemma pollAndPrint_dispatch (c : PhabPrint.Cycle) (task : Task.t) (tasks : list Task.t)
    (s : State) :
  PhabPrint.getSprintTasks E cfg c = PhabPrint.Tasks (task :: tasks) ->
  let formatted :=
    map (PhabricatorService.formatTaskForPrint (PhabPrint.baseUrl cfg)) (task :: tasks) in
  let s2 :=
    PhabPrint.log ("[INFO] Found "
                   ++ Js.numberToString (Z.of_nat (List.length (task :: tasks)))
                   ++ " tasks in sprint columns")
      (PhabPrint.log (String "010" "[POLL] Checking for new sprint tasks...") s) in
  let printed :=
    printTasks env (PhabPrint.heapOf formatted) (seq 0 (List.length formatted))
      (PhabPrint.delayBetweenPrintsMs cfg) s2 in
  PhabPrint.pollAndPrint E env cfg c s
  = PhabPrint.log ("[DONE] Printed " ++ Js.numberToString (Z.of_nat (fst printed))
                   ++ " new task(s)") (snd printed).
Proof.
  intros Hsel. unfold PhabPrint.pollAndPrint. rewrite Hsel. reflexivity.
Qed.

Lemma pollAndPrint_delivers (c : PhabPrint.Cycle) (s : State) :
  exists evs, Delivers s (PhabPrint.pollAndPrint E env cfg c s) evs.
Proof.
  destruct (PhabPrint.getSprintTasks E cfg c) as [[|task tasks]|err] eqn:Hsel.
  - unfold PhabPrint.pollAndPrint. rewrite Hsel. simpl.
    eexists. eapply Delivers_trans; [apply log_delivers|].
    eapply Delivers_trans; apply log_delivers.
  - rewrite (pollAndPrint_dispatch c task tasks s Hsel). cbv zeta.
    unfold printTasks.
    match goal with
    | |- context [loop env ?h ?ts ?d ?ts 0 ?s2] =>
        destruct (loop_delivers env h ts d ts 0 s2) as (evs & Hd & _)
    end.
    eexists. eapply Delivers_trans; [apply log_delivers|].
    eapply Delivers_trans; [apply log_delivers|].
    eapply Delivers_trans; [exact Hd | apply log_delivers].
  - unfold PhabPrint.pollAndPrint. rewrite Hsel.
    destruct (PhabPrint.DEBUG cfg).
    + eexists. eapply Delivers_trans; [apply log_delivers|].
      eapply Delivers_trans; apply logError_delivers.
    + eexists. eapply Delivers_trans; [apply log_delivers | apply logError_delivers].
Qed.
End PollFacts.

(** X21.  Over any number of successive poll cycles, whatever the tracker
    answers and whatever fails, each task id gets at most one ticket out of
    the printer, and none if it was cached at the start. *)
Theorem pollCycles_print_each_id_once :
  forall (E : RegExpEngine) (env : Env) (cfg : PhabPrint.Settings)
         (cycles : list PhabPrint.Cycle),
    PrintsOnce (PhabPrint.pollCycles E env cfg cycles).
Proof.
  intros E env cfg cycles. unfold PhabPrint.pollCycles.
  induction cycles as [|c cycles IH]; intros s; simpl.
  - exists []. apply Delivers_refl.
  - destruct (pollAndPrint_delivers E env cfg c s) as [evs1 H1].
    destruct (IH (PhabPrint.pollAndPrint E env cfg c s)) as [evs2 H2].
    exists (evs1 ++ evs2)%list.
    now apply (Delivers_trans s (PhabPrint.pollAndPrint E env cfg c s)).
Qed.

Section PollBatch.
Variable E : RegExpEngine.
Variable env : Env.
Variable cfg : PhabPrint.Settings.

Lemma printInvocations_app (evs1 evs2 : list Event) :
  printInvocations (evs1 ++ evs2)%list
  = (printInvocations evs1 ++ printInvocations evs2)%list.
Proof. unfold printInvocations. apply flat_map_app. Qed.

Lemma previews_app (evs1 evs2 : list Event) :
  previews (evs1 ++ evs2)%list = (previews evs1 ++ previews evs2)%list.
Proof. unfold previews. apply flat_map_app. Qed.

(** A turn hands to the printer, or previews, nothing but its own task. *)
Lemma iteration_own_task (heap : ref -> FormattedTask.t) (tasks : list ref) (d : Z)
    (task : ref) (c : nat) (s : State) :
  exists evs,
    trace (snd (iteration env heap tasks d task c s)) = (trace s ++ evs)%list
    /\ forall t, In t (printInvocations evs) \/ In t (previews evs) -> t = heap task.
Proof.
  destruct s as [sd sp sf st sn sw sr]. unfold_service.
  split_tests; normalize_trace; eexists; (split; [reflexivity|]); simpl;
    intros t H; intuition.
Qed.

Lemma loop_own_tasks (heap : ref -> FormattedTask.t) (tasks : list ref) (d : Z)
    (rest : list ref) :
  forall (c : nat) (s : State),
    exists evs,
      trace (snd (loop env heap tasks d rest c s)) = (trace s ++ evs)%list
      /\ forall t, In t (printInvocations evs) \/ In t (previews evs) ->
                   exists r, In r rest /\ t = heap r.
Proof.
  induction rest as [|task rest IH]; intros c s; simpl.
  - exists []. split; [now rewrite app_nil_r | simpl; tauto].
  - destruct (iteration_own_task heap tasks d task c s) as (evs1 & Ht1 & Ho1).
    destruct (iteration env heap tasks d task c s) as [c1 s1]. simpl in *.
    destruct (IH c1 s1) as (evs2 & Ht2 & Ho2).
    exists (evs1 ++ evs2)%list. split; [now rewrite Ht2, Ht1, app_assoc|].
    intros t. rewrite printInvocations_app, previews_app, !in_app_iff.
    intros [[H | H] | [H | H]].
    + exists task. split; [now left | apply Ho1; now left].
    + destruct (Ho2 t (or_introl H)) as (r & Hr & ->). exists r. split; [now right | reflexivity].
    + exists task. split; [now left | apply Ho1; now right].
    + destruct (Ho2 t (or_intror H)) as (r & Hr & ->). exists r. split; [now right | reflexivity].
Qed.

Lemma trace_log (line : string) (s : State) :
  trace (PhabPrint.log line s) = (trace s ++ [ConsoleLog line])%list.
Proof. reflexivity. Qed.

Lemma getSprintTasks_selected (c : PhabPrint.Cycle) (selected : list Task.t) :
  PhabPrint.getSprintTasks E cfg c = PhabPrint.Tasks selected ->
  exists tasks re,
    PhabPrint.answer c = PhabPrint.Tasks tasks
    /\ RegExp_new E (Js.join "|" (PhabPrint.sprintColumns cfg)) = Some re
    /\ selected = filter (PhabricatorService.inSprint E re) tasks.
Proof.
  unfold PhabPrint.getSprintTasks, PhabricatorService.filterSprintTasks.
  destruct (PhabPrint.answer c) as [tasks|err]; [|discriminate].
  destruct (RegExp_new E (Js.join "|" (PhabPrint.sprintColumns cfg))) as [re|];
    [|discriminate].
  intros [= <-]. now exists tasks, re.
Qed.

Lemma heapOf_member (formatted : list FormattedTask.t) (r : ref) :
  In r (seq 0 (List.length formatted)) -> In (PhabPrint.heapOf formatted r) formatted.
Proof.
  intros Hr. apply in_seq in Hr. unfold PhabPrint.heapOf. apply nth_In. lia.
Qed.
End PollBatch.

(** X19.  One poll cycle.  Whatever is handed to the printer, or previewed, is
    the formatting of a task that the tracker returned in this cycle and
    that the sprint filter kept.  When fetching or filtering fails the error
    is logged as [[ERROR] Poll failed], and then, as when no task is in a
    sprint column, the printer is not called and the cache, the file and the
    call counters are left as they were. *)
Theorem pollAndPrint_prints_sprint_tasks_only :
  forall (E : RegExpEngine) (env : Env) (cfg : PhabPrint.Settings)
         (c : PhabPrint.Cycle) (s : State),
    let s' := PhabPrint.pollAndPrint E env cfg c s in
    exists evs,
      trace s' = (trace s ++ evs)%list
      /\ (forall t, In t (printInvocations evs) \/ In t (previews evs) ->
            exists tasks re task,
              PhabPrint.answer c = PhabPrint.Tasks tasks
              /\ RegExp_new E (Js.join "|" (PhabPrint.sprintColumns cfg)) = Some re
              /\ In task tasks
              /\ PhabricatorService.inSprint E re task = true
              /\ t = PhabricatorService.formatTaskForPrint (PhabPrint.baseUrl cfg) task)
      /\ match PhabPrint.getSprintTasks E cfg c with
         | PhabPrint.Tasks (_ :: _) => True
         | PhabPrint.Tasks [] =>
             sameCore s s' /\ printInvocations evs = [] /\ previews evs = []
         | PhabPrint.Failure err =>
             sameCore s s' /\ printInvocations evs = [] /\ previews evs = []
             /\ In (ConsoleError ("[ERROR] Poll failed: " ++ PhabPrint.message err)) evs
         end.
Proof.
  intros E env cfg c s. cbv zeta.
  destruct (PhabPrint.getSprintTasks E cfg c) as [[|task tasks]|err] eqn:Hsel.
  - unfold PhabPrint.pollAndPrint. rewrite Hsel. simpl. normalize_trace.
    eexists. split_conj; try reflexivity.
    + simpl. tauto.
    + eapply sameCore_trans; [|apply sameCore_log].
      eapply sameCore_trans; apply sameCore_log.
  - rewrite (pollAndPrint_dispatch E env cfg c task tasks s Hsel). cbv zeta.
    destruct (getSprintTasks_selected E cfg c _ Hsel) as (all & re & Hans & Hre & Hfil).
    unfold printTasks.
    match goal with
    | |- context [loop env ?h ?ts ?d ?ts 0 ?s2] =>
        destruct (loop_own_tasks env h ts d ts 0 s2) as (evs & Ht & Ho)
    end.
    eexists. split_conj; [| |exact I].
    + rewrite trace_log, Ht, !trace_log, <- !app_assoc. reflexivity.
    + intros t Hin.
      assert (Hin' : In t (printInvocations evs) \/ In t (previews evs)).
      { rewrite !printInvocations_app, !previews_app, !in_app_iff in Hin.
        simpl in Hin. tauto. }
      destruct (Ho t Hin') as (r & Hr & ->).
      apply heapOf_member in Hr. apply in_map_iff in Hr as (task' & <- & Hsel').
      rewrite Hfil in Hsel'. apply filter_In in Hsel' as [Hall Hin_sprint].
      now exists all, re, task'.
  - unfold PhabPrint.pollAndPrint. rewrite Hsel.
    destruct (PhabPrint.DEBUG cfg); simpl; normalize_trace;
      eexists; split_conj; try reflexivity; simpl; try tauto.
    + eapply sameCore_trans; [|apply sameCore_logError].
      eapply sameCore_trans; [apply sameCore_log | apply sameCore_logError].
    + eapply sameCore_trans; [apply sameCore_log | apply sameCore_logError].
Qed.

(** X20.  In a poll cycle every wait lasts [delayBetweenPrintsMs], and there are
    fewer waits than sprint tasks: the formatted tasks are distinct objects,
    so the dispatch never waits after the last one. *)
Theorem pollAndPrint_waits_between_tasks :
  forall (E : RegExpEngine) (env : Env) (cfg : PhabPrint.Settings)
         (c : PhabPrint.Cycle) (s : State),
    exists evs,
      trace (PhabPrint.pollAndPrint E env cfg c s) = (trace s ++ evs)%list
      /\ Forall (eq (PhabPrint.delayBetweenPrintsMs cfg)) (sleeps evs)
      /\ List.length (sleeps evs)
         <= pred (match PhabPrint.getSprintTasks E cfg c with
                  | PhabPrint.Tasks sprintTasks => List.length sprintTasks
                  | PhabPrint.Failure _ => 0
                  end).
Proof.
  intros E env cfg c s.
  destruct (PhabPrint.getSprintTasks E cfg c) as [[|task tasks]|err] eqn:Hsel.
  - unfold PhabPrint.pollAndPrint. rewrite Hsel. simpl. normalize_trace.
    eexists. split_conj; [reflexivity | constructor | simpl; lia].
  - rewrite (pollAndPrint_dispatch E env cfg c task tasks s Hsel). cbv zeta.
    unfold printTasks.
    match goal with
    | |- context [loop env ?h ?ts ?d ?ts 0 ?s2] =>
        destruct (loop_waits env h ts d ts 0 s2) as (evs & Ht & Hf & _);
        destruct (dispatch_no_final_wait env h d ts 0 s2 (seq_NoDup _ _))
          as (evs' & Ht' & _ & Hb)
    end.
    rewrite Ht in Ht'. apply app_inv_head in Ht'. subst evs'.
    rewrite length_seq, length_map in Hb.
    eexists. split_conj.
    + rewrite trace_log, Ht, !trace_log, <- !app_assoc. reflexivity.
    + rewrite !sleeps_app. simpl. now rewrite app_nil_r.
    + rewrite !sleeps_app. simpl. now rewrite app_nil_r.
  - unfold PhabPrint.pollAndPrint. rewrite Hsel.
    destruct (PhabPrint.DEBUG cfg); simpl; normalize_trace;
      eexists; split_conj; try reflexivity; try constructor; simpl; lia.
Qed.

(* ================================================================== *)
(** * Further properties of the sprint filter *)

(** X12.  What [filterSprintTasks] selects, for any engine: when [new RegExp]
    accepts the joined keywords, a task is selected exactly when it is in
    the input and the pattern tests positive on the name of some column of
    some of its boards. *)
Theorem filterSprintTasks_selects :
  forall (E : RegExpEngine) (keywords : list string) (tasks selected : list Task.t),
    PhabricatorService.filterSprintTasks E keywords tasks = Some selected ->
    exists re,
      RegExp_new E (Js.join "|" keywords) = Some re
      /\ forall task,
           In task selected
           <-> In task tasks
               /\ exists bs board col,
                    PhabricatorService.columnsData task = Some bs
                    /\ In board bs
                    /\ In col (Board.columns board)
                    /\ RegExp_test E re (Column.name col) = true.
Proof.
  intros E keywords tasks selected.
  unfold PhabricatorService.filterSprintTasks.
  destruct (RegExp_new E (Js.join "|" keywords)) as [re|]; [|discriminate].
  intros [= <-]. exists re. split; [reflexivity|].
  intros task. rewrite filter_In. unfold PhabricatorService.inSprint.
  destruct (PhabricatorService.columnsData task) as [bs|].
  - rewrite someBoard_existsb, existsb_exists. split.
    + intros (Hin & board & Hb & Hcols). split; [assumption|].
      apply existsb_exists in Hcols as (col & Hc & Htest).
      now exists bs, board, col.
    + intros (Hin & bs' & board & col & [= <-] & Hb & Hc & Htest).
      split; [assumption|]. exists board. split; [assumption|].
      apply existsb_exists. now exists col.
  - split.
    + intros [_ H]. discriminate.
    + intros (_ & bs & board & col & H & _). discriminate.
Qed.

Lemma filterSprintTasks_selects_witness :
  exists re,
    RegExp_new Fragment.engine (Js.join "|" ["doing"]) = Some re
    /\ forall task,
         In task [Examples.rawTask 2 (Some [Examples.boardOf ["Doing"]])]
         <-> In task [Examples.rawTask 1 None;
                      Examples.rawTask 2 (Some [Examples.boardOf ["Doing"]])]
             /\ exists bs board col,
                  PhabricatorService.columnsData task = Some bs
                  /\ In board bs
                  /\ In col (Board.columns board)
                  /\ RegExp_test Fragment.engine re (Column.name col) = true.
Proof.
  apply (filterSprintTasks_selects Fragment.engine ["doing"]
           [Examples.rawTask 1 None;
            Examples.rawTask 2 (Some [Examples.boardOf ["Doing"]])]).
  reflexivity.
Defined.

Lemma includesIgnoreCase_empty (name : string) :
  Spec.includesIgnoreCase name "" = true.
Proof. destruct name; reflexivity. Qed.

Lemma test_empty_pattern (name : string) :
  Fragment.test [[]] name = true.
Proof. destruct name; reflexivity. Qed.

(** X13.  An empty keyword makes every column qualify.  With keywords free of
    regular-expression syntax, one of them empty (as a trailing comma in
    [SPRINT_COLUMNS] gives), or with no keyword at all, [filterSprintTasks]
    selects every task that has at least one column on some board. *)
Theorem filterSprintTasks_empty_keyword :
  forall (keywords : list string) (tasks : list Task.t),
    forallb Spec.plainKeyword keywords = true ->
    keywords = [] \/ In "" keywords ->
    PhabricatorService.filterSprintTasks Fragment.engine keywords tasks
    = Some (filter
              (fun task =>
                 match PhabricatorService.columnsData task with
                 | Some bs =>
                     existsb (fun board =>
                                match Board.columns board with
                                | [] => false
                                | _ :: _ => true
                                end) bs
                 | None => false
                 end) tasks).
Proof.
  intros keywords tasks Hplain Hempty.
  assert (Hcol : forall (f : Column.t -> bool) cols,
             (forall col, f col = true) ->
             existsb f cols = match cols with [] => false | _ :: _ => true end).
  { intros f [|col cols] Hf; simpl; [reflexivity | now rewrite Hf]. }
  destruct keywords as [|k keywords].
  - unfold PhabricatorService.filterSprintTasks. simpl. f_equal.
    apply filter_ext. intros task. unfold PhabricatorService.inSprint.
    destruct (PhabricatorService.columnsData task) as [bs|]; [|reflexivity].
    rewrite (someBoard_existsb Fragment.engine).
    apply existsb_pointwise. intros board. apply Hcol.
    intros col. apply test_empty_pattern.
  - destruct Hempty as [Habs | Hin]; [discriminate|].
    rewrite filterSprintTasks_plain_keywords; [|discriminate | assumption].
    unfold Spec.selectSprintTasks. f_equal.
    apply filter_ext. intros task. unfold Spec.qualifies.
    destruct (PhabricatorService.columnsData task) as [bs|]; [|reflexivity].
    apply existsb_pointwise. intros board. apply Hcol.
    intros col. apply existsb_exists. exists "". split; [assumption|].
    apply includesIgnoreCase_empty.
Qed.

Lemma filterSprintTasks_empty_keyword_witness :
  PhabricatorService.filterSprintTasks Fragment.engine ["sprint"; ""]
    [Examples.rawTask 1 (Some [Examples.boardOf ["Backlog"]]);
     Examples.rawTask 3 (Some [])]
  = Some [Examples.rawTask 1 (Some [Examples.boardOf ["Backlog"]])].
Proof.
  refine (filterSprintTasks_empty_keyword ["sprint"; ""]
            [Examples.rawTask 1 (Some [Examples.boardOf ["Backlog"]]);
             Examples.rawTask 3 (Some [])] _ _).
  - reflexivity.
  - right. simpl. tauto.
Defined.

(* ================================================================== *)
(** * Properties of the configured keywords *)

Section ConfigFacts.
Import JsString.

Ltac by_cases_on_char c :=
  destruct c as [[] [] [] [] [] [] [] []]; vm_compute; try reflexivity; try discriminate.

Lemma isWhiteSpace_lower (c : ascii) :
  isWhiteSpace (toLowerCaseChar c) = isWhiteSpace c.
Proof. by_cases_on_char c. Qed.

Lemma lower_lower (c : ascii) : toLowerCaseChar (toLowerCaseChar c) = toLowerCaseChar c.
Proof. by_cases_on_char c. Qed.

Lemma lower_comma (c : ascii) : toLowerCaseChar c = ","%char -> c = ","%char.
Proof. by_cases_on_char c. Qed.

Lemma isSyntaxCharacter_lower (c : ascii) :
  Fragment.isSyntaxCharacter (toLowerCaseChar c) = Fragment.isSyntaxCharacter c.
Proof. by_cases_on_char c. Qed.

Lemma split_nonempty (sep : ascii) (s : string) : split sep s <> [].
Proof.
  destruct s as [|c s]; simpl; [discriminate|].
  destruct (Ascii.eqb c sep); [discriminate|].
  destruct (split sep s); discriminate.
Qed.

(** The pieces are made of characters of the string, the separator apart. *)
Lemma split_chars (sep : ascii) (s : string) :
  Forall (fun piece =>
            forall c, In c (list_ascii_of_string piece) ->
                      c <> sep /\ In c (list_ascii_of_string s))
         (split sep s).
Proof.
  induction s as [|a s IH]; simpl.
  - repeat constructor; destruct H.
  - destruct (Ascii.eqb_spec a sep) as [-> | Hne].
    + constructor; [intros c [] |].
      eapply Forall_impl; [|exact IH]. simpl. intros piece H c Hc.
      destruct (H c Hc). auto.
    + pose proof (split_nonempty sep s) as Hnil.
      destruct (split sep s) as [|w ws]; [congruence|].
      inversion IH as [|? ? Hw Hws]; subst. constructor.
      * simpl. intros c [<- | Hc]; [auto|]. destruct (Hw c Hc). auto.
      * eapply Forall_impl; [|exact Hws]. simpl. intros piece H c Hc.
        destruct (H c Hc). auto.
Qed.

Lemma trimStart_chars (s : string) (c : ascii) :
  In c (list_ascii_of_string (trimStart s)) -> In c (list_ascii_of_string s).
Proof.
  induction s as [|a s IH]; simpl; [tauto|].
  destruct (isWhiteSpace a); simpl; auto.
Qed.

Lemma trimEnd_chars (s : string) (c : ascii) :
  In c (list_ascii_of_string (trimEnd s)) -> In c (list_ascii_of_string s).
Proof.
  induction s as [|a s IH]; simpl; [tauto|].
  destruct (trimEnd s) as [|b t] eqn:Ht.
  - destruct (isWhiteSpace a); simpl; tauto.
  - simpl in *. tauto.
Qed.

Lemma trim_chars (s : string) (c : ascii) :
  In c (list_ascii_of_string (trim s)) -> In c (list_ascii_of_string s).
Proof. intros H. now apply trimStart_chars, trimEnd_chars. Qed.

Lemma toLowerCase_chars (s : string) :
  list_ascii_of_string (toLowerCase s) = map toLowerCaseChar (list_ascii_of_string s).
Proof. induction s as [|a s IH]; simpl; [reflexivity | now rewrite IH]. Qed.

Lemma trimStart_fixed (s : string) :
  match s with EmptyString => True | String c _ => isWhiteSpace c = false end ->
  trimStart s = s.
Proof. destruct s as [|c s]; simpl; [reflexivity | now intros ->]. Qed.

Lemma trimStart_head (s : string) :
  match trimStart s with EmptyString => True | String c _ => isWhiteSpace c = false end.
Proof.
  induction s as [|c s IH]; simpl; [exact I|].
  destruct (isWhiteSpace c) eqn:Hc; [exact IH | exact Hc].
Qed.

Lemma trimEnd_head (s : string) :
  match s with EmptyString => True | String c _ => isWhiteSpace c = false end ->
  match trimEnd s with EmptyString => True | String c _ => isWhiteSpace c = false end.
Proof.
  destruct s as [|c s]; simpl; [trivial|]. intros Hc.
  destruct (trimEnd s); [rewrite Hc|]; exact Hc.
Qed.

Lemma trimEnd_trimEnd (s : string) : trimEnd (trimEnd s) = trimEnd s.
Proof.
  induction s as [|c s IH]; simpl; [reflexivity|].
  destruct (trimEnd s) as [|b t] eqn:Ht.
  - destruct (isWhiteSpace c) eqn:Hc; simpl; [reflexivity | now rewrite Hc].
  - change (trimEnd (String c (String b t)))
      with (match trimEnd (String b t) with
            | EmptyString => if isWhiteSpace c then EmptyString else String c EmptyString
            | r => String c r
            end).
    now rewrite IH.
Qed.

Lemma trim_trim (s : string) : trim (trim s) = trim s.
Proof.
  unfold trim.
  rewrite (trimStart_fixed (trimEnd (trimStart s))).
  - apply trimEnd_trimEnd.
  - apply trimEnd_head, trimStart_head.
Qed.

Lemma trimStart_lower (s : string) :
  trimStart (toLowerCase s) = toLowerCase (trimStart s).
Proof.
  induction s as [|c s IH]; simpl; [reflexivity|].
  rewrite isWhiteSpace_lower. now destruct (isWhiteSpace c).
Qed.

Lemma trimEnd_lower (s : string) :
  trimEnd (toLowerCase s) = toLowerCase (trimEnd s).
Proof.
  induction s as [|c s IH]; simpl; [reflexivity|].
  rewrite IH, isWhiteSpace_lower.
  destruct (trimEnd s); simpl; [now destruct (isWhiteSpace c) | reflexivity].
Qed.

Lemma toLowerCase_toLowerCase (s : string) :
  toLowerCase (toLowerCase s) = toLowerCase s.
Proof. induction s as [|c s IH]; simpl; [reflexivity | now rewrite lower_lower, IH]. Qed.

Lemma keyword_chars (piece : string) (c : ascii) :
  In c (list_ascii_of_string (toLowerCase (trim piece))) ->
  exists a, In a (list_ascii_of_string piece) /\ c = toLowerCaseChar a.
Proof.
  rewrite toLowerCase_chars, in_map_iff. intros (a & <- & Ha).
  exists a. split; [now apply trim_chars | reflexivity].
Qed.
End ConfigFacts.

(** X14.  The keywords read from [SPRINT_COLUMNS]: there is always at least
    one; each is trimmed and in lower case already and contains no comma;
    and an unset or empty variable gives the four default keywords.  The
    statuses read from [TASK_STATUSES] are likewise at least one, trimmed
    and free of commas. *)
Theorem filters_normalised :
  forall env : Config.ProcessEnv,
    let keywords := Config.sprintColumns env in
    keywords <> []
    /\ Forall (fun k => JsString.trim k = k
                        /\ JsString.toLowerCase k = k
                        /\ ~ In ","%char (list_ascii_of_string k)) keywords
    /\ match Config.SPRINT_COLUMNS env with
       | None | Some EmptyString =>
           keywords = ["sprint"; "to do"; "in progress"; "doing"]
       | Some _ => True
       end
    /\ Config.statuses env <> []
    /\ Forall (fun k => JsString.trim k = k
                        /\ ~ In ","%char (list_ascii_of_string k)) (Config.statuses env).
Proof.
  intros env. cbv zeta.
  assert (Hstatuses :
            Config.statuses env <> []
            /\ Forall (fun k => JsString.trim k = k
                                /\ ~ In ","%char (list_ascii_of_string k))
                 (Config.statuses env)).
  { unfold Config.statuses.
    set (raw := PhabricatorService.orElse (Config.TASK_STATUSES env) "open").
    split.
    - intros H. apply map_eq_nil in H. now apply (split_nonempty "," raw).
    - apply Forall_map. eapply Forall_impl; [|apply (split_chars "," raw)].
      simpl. intros piece Hpiece. split; [apply trim_trim|].
      intros Hin. apply trim_chars in Hin. now destruct (Hpiece _ Hin). }
  destruct Hstatuses as [Hs1 Hs2].
  unfold Config.sprintColumns.
  set (raw := PhabricatorService.orElse (Config.SPRINT_COLUMNS env)
                "sprint,to do,in progress,doing").
  split_conj; try assumption.
  - intros H. apply map_eq_nil in H. now apply (split_nonempty "," raw).
  - apply Forall_map. eapply Forall_impl; [|apply (split_chars "," raw)].
    simpl. intros piece Hpiece. split_conj.
    + unfold JsString.trim at 1.
      rewrite trimStart_lower, trimEnd_lower. fold (JsString.trim (JsString.trim piece)).
      now rewrite trim_trim.
    + apply toLowerCase_toLowerCase.
    + intros Hin. apply keyword_chars in Hin as (a & Ha & Hc).
      symmetry in Hc. apply lower_comma in Hc. subst a.
      now destruct (Hpiece _ Ha).
  - unfold raw. destruct (Config.SPRINT_COLUMNS env) as [[|c s]|]; try exact I; reflexivity.
Qed.

(** Letters outside ASCII are folded too: [0xC9] (capital E acute) is
    lowered to [0xE9] by the configuration, and the two match under the
    [i] flag of the pattern. *)
Example sprintColumns_latin1 :
  let E_acute := String (ascii_of_nat 201) "" in
  let e_acute := String (ascii_of_nat 233) "" in
  Config.sprintColumns
    {| Config.SPRINT_COLUMNS := Some (" CAF" ++ E_acute ++ " ,Sprint ");
       Config.TASK_STATUSES := None |}
  = ["caf" ++ e_acute; "sprint"]
  /\ PhabricatorService.filterSprintTasks Fragment.engine ["caf" ++ e_acute]
       [Examples.rawTask 1 (Some [Examples.boardOf ["Caf" ++ E_acute ++ " board"]]);
        Examples.rawTask 2 (Some [Examples.boardOf ["Cafe board"]])]
     = Some [Examples.rawTask 1 (Some [Examples.boardOf ["Caf" ++ E_acute ++ " board"]])].
Proof. cbv zeta. split; vm_compute; reflexivity. Qed.

Lemma columnsData_boards (task : Task.t) (bs : list Board.t) :
  PhabricatorService.columnsData task = Some bs
  <-> exists att cols,
        Task.attachments task = Some att
        /\ Attachments.columns att = Some cols
        /\ ColumnsAttachment.boards cols = Some bs.
Proof.
  unfold PhabricatorService.columnsData.
  destruct (Task.attachments task) as [att|].
  - destruct (Attachments.columns att) as [cols|] eqn:Hcols.
    + split.
      * intros H. now exists att, cols.
      * intros (att' & cols' & [= <-] & Hc & H). congruence.
    + split; [discriminate|].
      intros (att' & cols' & [= <-] & H & _). congruence.
  - split; [discriminate|]. intros (att' & cols' & H & _). discriminate.
Qed.

Lemma qualifies_spec (keywords : list string) (task : Task.t) :
  Spec.qualifies keywords task = true
  <-> exists att cols bs board col keyword,
        Task.attachments task = Some att
        /\ Attachments.columns att = Some cols
        /\ ColumnsAttachment.boards cols = Some bs
        /\ In board bs
        /\ In col (Board.columns board)
        /\ In keyword keywords
        /\ Spec.containsIgnoreCase (Column.name col) keyword.
Proof.
  unfold Spec.qualifies. split.
  - destruct (PhabricatorService.columnsData task) as [bs|] eqn:Hdata;
      [|discriminate].
    apply columnsData_boards in Hdata as (att & cols & Ha & Hc & Hb).
    intros H. apply existsb_exists in H as (board & Hboard & H).
    apply existsb_exists in H as (col & Hcol & H).
    apply existsb_exists in H as (keyword & Hk & H).
    apply includesIgnoreCase_spec in H.
    now exists att, cols, bs, board, col, keyword.
  - intros (att & cols & bs & board & col & keyword
            & Ha & Hc & Hb & Hboard & Hcol & Hk & H).
    assert (Hdata : PhabricatorService.columnsData task = Some bs).
    { apply columnsData_boards. now exists att, cols. }
    rewrite Hdata. apply existsb_exists. exists board. split; [assumption|].
    apply existsb_exists. exists col. split; [assumption|].
    apply existsb_exists. exists keyword. split; [assumption|].
    now apply includesIgnoreCase_spec.
Qed.

(** X15.  From the environment to the filter: when [SPRINT_COLUMNS] contains no
    regular-expression syntax character, [filterSprintTasks] with the
    configured keywords returns, and selects, in the order of the input,
    exactly the tasks whose attachments hold a board with a column whose
    name contains one of the keywords, letter case aside. *)
Theorem configured_filter_is_substring_filter :
  forall (env : Config.ProcessEnv) (tasks : list Task.t),
    (forall raw, Config.SPRINT_COLUMNS env = Some raw -> Spec.plainKeyword raw = true) ->
    exists selected : list Task.t,
      PhabricatorService.filterSprintTasks Fragment.engine
        (Config.sprintColumns env) tasks = Some selected
      /\ (exists keep : Task.t -> bool, selected = filter keep tasks)
      /\ forall task : Task.t,
           In task selected
           <-> In task tasks
               /\ exists att cols bs board col keyword,
                    Task.attachments task = Some att
                    /\ Attachments.columns att = Some cols
                    /\ ColumnsAttachment.boards cols = Some bs
                    /\ In board bs
                    /\ In col (Board.columns board)
                    /\ In keyword (Config.sprintColumns env)
                    /\ Spec.containsIgnoreCase (Column.name col) keyword.
Proof.
  intros env tasks Hplain.
  exists (filter (Spec.qualifies (Config.sprintColumns env)) tasks).
  split; [|split].
  - apply filterSprintTasks_plain_keywords.
    + unfold Config.sprintColumns. intros H. apply map_eq_nil in H.
      now apply split_nonempty in H.
    + unfold Config.sprintColumns.
      set (raw := PhabricatorService.orElse (Config.SPRINT_COLUMNS env)
                    "sprint,to do,in progress,doing").
      assert (Hraw : Spec.plainKeyword raw = true).
      { unfold raw. destruct (Config.SPRINT_COLUMNS env) as [[|c s]|] eqn:Henv;
          try reflexivity. now apply Hplain. }
      apply forallb_forall. intros k Hk. apply in_map_iff in Hk as (piece & <- & Hpiece).
      pose proof (split_chars "," raw) as Hchars.
      rewrite Forall_forall in Hchars. specialize (Hchars piece Hpiece).
      unfold Spec.plainKeyword in *. apply forallb_forall. intros c Hc.
      apply keyword_chars in Hc as (a & Ha & ->).
      rewrite isSyntaxCharacter_lower.
      rewrite forallb_forall in Hraw. apply Hraw. now destruct (Hchars a Ha).
  - now exists (Spec.qualifies (Config.sprintColumns env)).
  - intros task. rewrite filter_In, qualifies_spec. reflexivity.
Qed.

(** Keywords written with capitals and blanks in the environment: the
    task in the column [TO DO (next)] and the one in [Doing now] are
    selected, the task in [Backlog] and the task without boards are not. *)
Lemma configured_filter_is_substring_filter_witness :
  let env := {| Config.SPRINT_COLUMNS := Some "Sprint, To Do,doing";
                Config.TASK_STATUSES := None |} in
  let tasks := [Examples.rawTask 1 (Some [Examples.boardOf ["TO DO (next)"]]);
                Examples.rawTask 2 (Some [Examples.boardOf ["Backlog"]]);
                Examples.rawTask 3 None;
                Examples.rawTask 4 (Some [Examples.boardOf ["Backlog"];
                                          Examples.boardOf ["Review"; "Doing now"]])] in
  PhabricatorService.filterSprintTasks Fragment.engine (Config.sprintColumns env) tasks
  = Some [Examples.rawTask 1 (Some [Examples.boardOf ["TO DO (next)"]]);
          Examples.rawTask 4 (Some [Examples.boardOf ["Backlog"];
                                    Examples.boardOf ["Review"; "Doing now"]])]
  /\ exists selected : list Task.t,
       PhabricatorService.filterSprintTasks Fragment.engine
         (Config.sprintColumns env) tasks = Some selected
       /\ In (Examples.rawTask 4 (Some [Examples.boardOf ["Backlog"];
                                        Examples.boardOf ["Review"; "Doing now"]]))
             selected.
Proof.
  intros env tasks. split; [vm_compute; reflexivity|].
  destruct (configured_filter_is_substring_filter env tasks)
    as (selected & Hsel & _ & Hin).
  - intros raw [= <-]. reflexivity.
  - exists selected. split; [exact Hsel|].
    apply Hin. split; [simpl; tauto|].
    exists (Attachments.make None
              (Some (ColumnsAttachment.make
                 (Some [Examples.boardOf ["Backlog"];
                        Examples.boardOf ["Review"; "Doing now"]])))),
      (ColumnsAttachment.make
         (Some [Examples.boardOf ["Backlog"];
                Examples.boardOf ["Review"; "Doing now"]])),
      [Examples.boardOf ["Backlog"]; Examples.boardOf ["Review"; "Doing now"]],
      (Examples.boardOf ["Review"; "Doing now"]),
      (Column.make "Doing now"), "doing".
    split; [reflexivity|]. split; [reflexivity|]. split; [reflexivity|].
    split; [simpl; tauto|]. split; [simpl; tauto|].
    split; [vm_compute; do 2 right; left; reflexivity|].
    apply includesIgnoreCase_spec. reflexivity.
Defined.

(* ================================================================== *)
(** * Properties of the Conduit request *)

Section ConduitFacts.
Import Conduit.

Lemma length_set (key : string) (v : Scalar) (o : Params) :
  List.length (set key v o) <= S (List.length o).
Proof.
  induction o as [|[k x] o IH]; simpl; [lia|].
  destruct (String.eqb k key); simpl; lia.
Qed.

Lemma length_assign (source target : Params) :
  List.length (assign target source) <= List.length target + List.length source.
Proof.
  unfold assign. revert target.
  induction source as [|[k v] source IH]; intros target; simpl; [lia|].
  specialize (IH (set k v target)). pose proof (length_set k v target). lia.
Qed.

(** Both for a whole value and for one entry holding it. *)
Lemma flattenParams_forEntry_bounded (value : Value) :
  (forall prefix, List.length (flattenParams value prefix) <= leaves value)
  /\ (forall prefix result key,
        List.length (forEntry flattenParams prefix result key value)
        <= List.length result + leaves value).
Proof.
  induction value as [v | items IH | entries IH] using Value_ind.
  - split; intros; simpl; [lia|]. pose proof (length_set (newKey prefix key) v result). lia.
  - split.
    + intros prefix. simpl.
      assert (H : forall st,
                 List.length
                   (snd (fold_left
                           (fun st item =>
                              (S (fst st),
                               forEntry flattenParams prefix (snd st)
                                 (Js.numberToString (Z.of_nat (fst st))) item))
                           items st))
                 <= List.length (snd st)
                    + fold_right (fun item n => leaves item + n) 0 items).
      { induction IH as [|item items [_ Hitem] _ IHitems]; intros st; cbn [fold_left fold_right fst snd List.length]; [lia|].
        specialize (IHitems (S (fst st),
                             forEntry flattenParams prefix (snd st)
                               (Js.numberToString (Z.of_nat (fst st))) item)).
        cbn [fst snd] in IHitems.
        specialize (Hitem prefix (snd st) (Js.numberToString (Z.of_nat (fst st)))).
        lia. }
      specialize (H (0, [])). simpl in H. exact H.
    + intros prefix result key. simpl.
      assert (H : forall st,
                 List.length
                   (snd (fold_left
                           (fun st item =>
                              (S (fst st),
                               match item with
                               | Leaf v =>
                                   set (indexKey (newKey prefix key) (fst st)) v (snd st)
                               | _ =>
                                   assign (snd st)
                                     (flattenParams item
                                        (indexKey (newKey prefix key) (fst st)))
                               end))
                           items st))
                 <= List.length (snd st)
                    + fold_right (fun item n => leaves item + n) 0 items).
      { induction IH as [|item items [Hitem _] _ IHitems]; intros st; cbn [fold_left fold_right fst snd List.length]; [lia|].
        match goal with
        | |- context [fold_left _ items ?st'] => specialize (IHitems st')
        end.
        cbn [fst snd] in IHitems.
        assert (Hstep :
                  List.length
                    (match item with
                     | Leaf v => set (indexKey (newKey prefix key) (fst st)) v (snd st)
                     | _ => assign (snd st)
                              (flattenParams item (indexKey (newKey prefix key) (fst st)))
                     end)
                  <= List.length (snd st) + leaves item).
        { specialize (Hitem (indexKey (newKey prefix key) (fst st))).
          destruct item as [v | items' | entries'].
          - pose proof (length_set (indexKey (newKey prefix key) (fst st)) v (snd st)).
            simpl. lia.
          - pose proof (length_assign
                          (flattenParams (Arr items')
                             (indexKey (newKey prefix key) (fst st))) (snd st)). lia.
          - pose proof (length_assign
                          (flattenParams (Obj entries')
                             (indexKey (newKey prefix key) (fst st))) (snd st)). lia. }
        eapply Nat.le_trans; [exact IHitems|].
        rewrite Nat.add_assoc. apply Nat.add_le_mono_r. exact Hstep. }
      specialize (H (0, result)). simpl in H. exact H.
  - assert (Hflat : forall prefix,
               List.length (flattenParams (Obj entries) prefix) <= leaves (Obj entries)).
    { intros prefix. simpl.
      assert (H : forall result,
                 List.length
                   (fold_left
                      (fun result kv =>
                         forEntry flattenParams prefix result (fst kv) (snd kv))
                      entries result)
                 <= List.length result
                    + fold_right (fun kv n => leaves (snd kv) + n) 0 entries).
      { induction IH as [|kv entries [_ Hkv] _ IHentries]; intros result; cbn [fold_left fold_right fst snd List.length]; [lia|].
        specialize (IHentries (forEntry flattenParams prefix result (fst kv) (snd kv))).
        specialize (Hkv prefix result (fst kv)). lia. }
      specialize (H []). simpl in H. exact H. }
    split; [exact Hflat|].
    intros prefix result key.
    change (forEntry flattenParams prefix result key (Obj entries))
      with (assign result (flattenParams (Obj entries) (newKey prefix key))).
    pose proof (length_assign (flattenParams (Obj entries) (newKey prefix key)) result).
    specialize (Hflat (newKey prefix key)). lia.
Qed.
End ConduitFacts.

(** X17.  [flattenParams] yields at most one parameter per scalar held in the
    value, whatever the nesting and the prefix; in particular an empty array
    or an empty object contributes no parameter at all. *)
Theorem flattenParams_bounded :
  forall (value : Conduit.Value) (prefix : string),
    List.length (Conduit.flattenParams value prefix) <= Conduit.leaves value.
Proof.
  intros value. apply flattenParams_forEntry_bounded.
Qed.

(** A request constraint with an empty list vanishes from the request. *)
Example flattenParams_drops_empty_array :
  Conduit.flattenParams
    (Conduit.Obj [("constraints", Conduit.Obj [("projects", Conduit.Arr [])]);
                  ("limit", Conduit.Leaf (Conduit.Num 100))]) ""
  = [("limit", Conduit.Num 100)].
Proof. reflexivity. Qed.

Section RequestFacts.
Import Conduit.

Lemma append_inv_head (p a b : string) : p ++ a = p ++ b -> a = b.
Proof. induction p as [|c p IH]; simpl; [auto|]. intros [= H]. auto. Qed.

Lemma append_inv_bracket (a b : string) : a ++ "]" = b ++ "]" -> a = b.
Proof.
  revert b. induction a as [|c a IH]; intros [|d b]; simpl; try reflexivity.
  - intros [= _ H]. now destruct b.
  - intros [= _ H]. now destruct a.
  - intros [= -> H]. f_equal. now apply IH.
Qed.

Lemma numberToString_injective (n m : Z) :
  Js.numberToString n = Js.numberToString m -> n = m.
Proof.
  intros H. apply (f_equal Js.parseInteger) in H.
  rewrite !parseInteger_numberToString in H. now injection H.
Qed.

Lemma indexKey_injective (key : string) (i j : nat) :
  indexKey key i = indexKey key j -> i = j.
Proof.
  unfold indexKey. intros H.
  apply append_inv_head in H. simpl in H. injection H as H.
  apply append_inv_bracket, numberToString_injective in H. lia.
Qed.

Lemma set_fresh (key : string) (v : Scalar) (o : Params) :
  lookup key o = None -> set key v o = (o ++ [(key, v)])%list.
Proof.
  induction o as [|[k x] o IH]; simpl; [reflexivity|].
  destruct (String.eqb k key); [discriminate|]. intros H. now rewrite IH.
Qed.

Lemma lookup_app (key : string) (o1 o2 : Params) :
  lookup key (o1 ++ o2)%list
  = match lookup key o1 with Some v => Some v | None => lookup key o2 end.
Proof.
  induction o1 as [|[k x] o1 IH]; simpl; [reflexivity|].
  now destruct (String.eqb k key).
Qed.

Lemma assign_fresh (source target : Params) :
  NoDup (map fst source) ->
  (forall k, In k (map fst source) -> lookup k target = None) ->
  assign target source = (target ++ source)%list.
Proof.
  unfold assign. revert target.
  induction source as [|[k v] source IH]; intros target Hnd Hfresh; simpl.
  - now rewrite app_nil_r.
  - inversion Hnd as [|? ? Hk Hnd']; subst.
    rewrite set_fresh by (apply Hfresh; now left).
    rewrite IH; [now rewrite <- app_assoc | assumption |].
    intros k' Hk'. rewrite lookup_app, Hfresh by now right. simpl.
    destruct (String.eqb_spec k k') as [-> | _]; [contradiction | reflexivity].
Qed.

Lemma indexed_keys (key : string) (items : list string) :
  forall (i : nat) (k : string),
    In k (map fst (indexed key i items)) -> exists j, i <= j /\ k = indexKey key j.
Proof.
  induction items as [|item items IH]; intros i k; simpl; [tauto|].
  intros [<- | H]; [exists i; split; [lia | reflexivity]|].
  destruct (IH (S i) k H) as (j & Hj & ->). exists j. split; [lia | reflexivity].
Qed.

Lemma indexed_keys_distinct (key : string) (items : list string) :
  forall i : nat, NoDup (map fst (indexed key i items)).
Proof.
  induction items as [|item items IH]; intros i; simpl; constructor; [|apply IH].
  intros H. apply indexed_keys in H as (j & Hj & Heq).
  apply indexKey_injective in Heq. lia.
Qed.

Lemma lookup_absent (key : string) (o : Params) :
  ~ In key (map fst o) -> lookup key o = None.
Proof.
  induction o as [|[k x] o IH]; simpl; [reflexivity|]. intros H.
  destruct (String.eqb_spec k key) as [-> | _]; [tauto | apply IH; tauto].
Qed.

(** An array of strings under a key none of whose indexed forms is set
    yet: one parameter per item, in order, after the ones present. *)
Lemma flatten_strings (key : string) (items : list string) :
  forall (i : nat) (result : Params),
    (forall j, i <= j -> lookup (indexKey key j) result = None) ->
    snd (fold_left
           (fun st item =>
              (S (fst st),
               match item with
               | Leaf v => set (indexKey key (fst st)) v (snd st)
               | _ => assign (snd st) (flattenParams item (indexKey key (fst st)))
               end))
           (map (fun s => Leaf (Str s)) items) (i, result))
    = (result ++ indexed key i items)%list.
Proof.
  induction items as [|item items IH]; intros i result Hfresh; simpl.
  - now rewrite app_nil_r.
  - rewrite set_fresh by (apply Hfresh; lia).
    rewrite IH; [now rewrite <- app_assoc|].
    intros j Hj. rewrite lookup_app, Hfresh by lia. simpl.
    destruct (String.eqb_spec (indexKey key i) (indexKey key j)) as [Heq | _];
      [|reflexivity].
    apply indexKey_injective in Heq. lia.
Qed.
End RequestFacts.

Lemma getMyTasksParams_flattened :
  forall (userPhid : string) (statuses : list string),
    Conduit.flattenParams (Conduit.getMyTasksParams userPhid statuses) ""
    = (("constraints[assigned][0]", Conduit.Str userPhid)
         :: Conduit.indexed "constraints[statuses]" 0 statuses
         ++ [("attachments[projects]", Conduit.Bool true);
             ("attachments[columns]", Conduit.Bool true);
             ("limit", Conduit.Num 100)])%list.
Proof.
  intros userPhid statuses.
  assert (Hother : forall k,
             (forall j, k <> Conduit.indexKey "constraints[statuses]" j) ->
             k <> "constraints[assigned][0]" ->
             Conduit.lookup k
               (("constraints[assigned][0]", Conduit.Str userPhid)
                  :: Conduit.indexed "constraints[statuses]" 0 statuses) = None).
  { intros k Hk Hk0. apply lookup_absent. simpl. intros [H | H]; [congruence|].
    apply indexed_keys in H as (j & _ & ->). now apply (Hk j). }
  assert (Hinner :
            Conduit.flattenParams
              (Conduit.Obj
                 [("assigned", Conduit.Arr [Conduit.Leaf (Conduit.Str userPhid)]);
                  ("statuses",
                   Conduit.Arr (map (fun s => Conduit.Leaf (Conduit.Str s)) statuses))])
              "constraints"
            = ("constraints[assigned][0]", Conduit.Str userPhid)
                :: Conduit.indexed "constraints[statuses]" 0 statuses).
  { cbn [Conduit.flattenParams fold_left fst snd Conduit.forEntry].
    change (Conduit.newKey "constraints" "statuses") with "constraints[statuses]".
    rewrite flatten_strings; [reflexivity|].
    intros j _. apply lookup_absent. simpl. intros [H | []].
    revert H. unfold Conduit.indexKey. simpl. discriminate. }
  unfold Conduit.getMyTasksParams.
  cbn [Conduit.flattenParams fold_left fst snd].
  unfold Conduit.forEntry at 1 2 3.
  change (Conduit.newKey "" "constraints") with "constraints".
  change (Conduit.newKey "" "attachments") with "attachments".
  change (Conduit.newKey "" "limit") with "limit".
  rewrite Hinner.
  change (Conduit.flattenParams
            (Conduit.Obj [("projects", Conduit.Leaf (Conduit.Bool true));
                          ("columns", Conduit.Leaf (Conduit.Bool true))]) "attachments")
    with [("attachments[projects]", Conduit.Bool true);
          ("attachments[columns]", Conduit.Bool true)].
  rewrite (assign_fresh _ []); [|apply (indexed_keys_distinct _ _ 0)
                                    || (constructor; [|apply indexed_keys_distinct])
                                 | reflexivity].
  2:{ intros H. apply indexed_keys in H as (j & _ & H).
      revert H. unfold Conduit.indexKey. simpl. discriminate. }
  cbn [app].
  rewrite assign_fresh.
  - rewrite set_fresh.
    + cbn [app]. now rewrite <- app_assoc.
    + rewrite lookup_app, Hother; [reflexivity | | discriminate].
      intros j. unfold Conduit.indexKey. simpl. discriminate.
  - repeat constructor; simpl; intuition discriminate.
  - intros k [<- | [<- | []]]; apply Hother; try discriminate;
      intros j; unfold Conduit.indexKey; simpl; discriminate.
Qed.

Lemma curlArgs_flat_map (apiToken : string) (params : Conduit.Value) :
  Conduit.curlArgs apiToken params
  = List.app ["--data-urlencode"; "api.token=" ++ apiToken]
      (flat_map (fun kv => ["--data-urlencode";
                            fst kv ++ "=" ++ Conduit.scalarToString (snd kv)])
         (Conduit.flattenParams params "")).
Proof.
  unfold Conduit.curlArgs.
  generalize (Conduit.flattenParams params "") as flat.
  generalize ["--data-urlencode"; "api.token=" ++ apiToken] as args.
  intros args flat. revert args.
  induction flat as [|kv flat IH]; intros args; simpl.
  - now rewrite app_nil_r.
  - rewrite IH, <- app_assoc. reflexivity.
Qed.

(** X18.  The request of [getMyTasks].  Its flattened parameters are, in this
    order: the user as [constraints[assigned][0]], one
    [constraints[statuses][i]] per configured status, the two attachment
    flags, and the limit of 100; the [curl] arguments carry the API token
    first and then each parameter as [key=value], every one of them after a
    [--data-urlencode]. *)
Theorem getMyTasks_request :
  forall (apiToken userPhid : string) (statuses : list string),
    let flat :=
      (("constraints[assigned][0]", Conduit.Str userPhid)
         :: Conduit.indexed "constraints[statuses]" 0 statuses
         ++ [("attachments[projects]", Conduit.Bool true);
             ("attachments[columns]", Conduit.Bool true);
             ("limit", Conduit.Num 100)])%list in
    Conduit.flattenParams (Conduit.getMyTasksParams userPhid statuses) "" = flat
    /\ Conduit.curlArgs apiToken (Conduit.getMyTasksParams userPhid statuses)
       = "--data-urlencode" :: ("api.token=" ++ apiToken)
           :: "--data-urlencode" :: ("constraints[assigned][0]=" ++ userPhid)
           :: List.app
                (flat_map (fun kv => ["--data-urlencode";
                                      fst kv ++ "=" ++ Conduit.scalarToString (snd kv)])
                   (Conduit.indexed "constraints[statuses]" 0 statuses))
                ["--data-urlencode"; "attachments[projects]=true";
                 "--data-urlencode"; "attachments[columns]=true";
                 "--data-urlencode"; "limit=100"].
Proof.
  intros apiToken userPhid statuses flat.
  split; [apply getMyTasksParams_flattened|].
  rewrite curlArgs_flat_map, getMyTasksParams_flattened.
  cbn [app flat_map fst snd Conduit.scalarToString].
  rewrite flat_map_app. reflexivity.
Qed.

(* ================================================================== *)
(** * The ticket's link *)

Lemma prefix_append (p q : string) : String.prefix p (p ++ q) = true.
Proof.
  induction p as [|c p IH]; simpl; [now destruct q|].
  destruct (ascii_dec c c); [exact IH | congruence].
Qed.

Lemma drop_append (p q : string) : Js.drop (String.length p) (p ++ q) = q.
Proof. induction p as [|c p IH]; simpl; [now destruct q | exact IH]. Qed.

Lemma replace_unfold (pat rep s : string) :
  Js.replace pat rep s
  = if String.prefix pat s then rep ++ Js.drop (String.length pat) s
    else match s with
         | EmptyString => EmptyString
         | String c s' => String c (Js.replace pat rep s')
         end.
Proof. destruct s; reflexivity. Qed.

(** [replace] rewrites the first occurrence of the pattern, and only it. *)
Lemma replace_first_occurrence (pat rep post : string) (pre : string) :
  (forall i, i < String.length pre ->
             String.prefix pat (Js.drop i (pre ++ pat ++ post)) = false) ->
  Js.replace pat rep (pre ++ pat ++ post) = pre ++ rep ++ post.
Proof.
  induction pre as [|c pre IH]; intros Hfirst.
  - simpl. rewrite replace_unfold, prefix_append, drop_append. reflexivity.
  - rewrite replace_unfold.
    assert (H0 : String.prefix pat (String c pre ++ pat ++ post) = false)
      by (apply (Hfirst 0); simpl; lia).
    rewrite H0. cbn [append]. f_equal. apply IH.
    intros i Hi. apply (Hfirst (S i)). simpl. lia.
Qed.

(** X16.  For a base URL ending in [/api], with no earlier occurrence of
    [/api], the link printed on the ticket is the base URL without that
    suffix, a slash, and the task id. *)
Theorem formatTaskForPrint_url :
  forall (host : string) (task : Task.t),
    (forall i, i < String.length host ->
               String.prefix "/api" (Js.drop i (host ++ "/api")) = false) ->
    FormattedTask.url (PhabricatorService.formatTaskForPrint (host ++ "/api") task)
    = host ++ "/T" ++ Js.numberToString (Task.id task).
Proof.
  intros host task Hfirst.
  unfold PhabricatorService.formatTaskForPrint. cbn [FormattedTask.url].
  assert (H : Js.replace "/api" "" (host ++ "/api" ++ "") = host ++ "" ++ "").
  { apply replace_first_occurrence. exact Hfirst. }
  simpl in H. rewrite H.
  assert (Hnil : forall s, s ++ "" = s).
  { induction s as [|c s IHs]; simpl; [reflexivity | now rewrite IHs]. }
  now rewrite Hnil.
Qed.

Lemma formatTaskForPrint_url_witness :
  FormattedTask.url
    (PhabricatorService.formatTaskForPrint ("https://phab.example.org" ++ "/api")
       (Examples.bareTask 12345))
  = "https://phab.example.org" ++ "/T" ++ Js.numberToString 12345.
Proof.
  apply (formatTaskForPrint_url "https://phab.example.org" (Examples.bareTask 12345)).
  intros i Hi.
  do 24 (destruct i as [|i]; [reflexivity|]).
  simpl in Hi. lia.
Defined.

(** Only the first [/api] is removed: a host name that itself starts
    with [api] loses these letters, and the suffix stays. *)
Example formatTaskForPrint_url_first_occurrence :
  FormattedTask.url
    (PhabricatorService.formatTaskForPrint "https://api.example.org/api"
       (Examples.bareTask 7))
  = "https:/.example.org/api/T7".
Proof. reflexivity. Qed.

(* ================================================================== *)
(** * The file keeps in step with the set *)

Section InStep.
Variable env : Env.
Variable heap : ref -> FormattedTask.t.
Hypothesis writable : forall n, writeFileSync env n = None.

Ltac in_step H :=
  first [ exact H
        | intros x; reflexivity
        | match goal with
          | H' : writeFileSync _ _ = Some _ |- _ => rewrite writable in H'; discriminate
          end ].

Lemma iteration_in_step (tasks : list ref) (d : Z) (task : ref) (c : nat) (s : State) :
  (forall x, Operations.persisted x s = Set_has x (printedTasks s)) ->
  forall x,
    Operations.persisted x (snd (iteration env heap tasks d task c s))
    = Set_has x (printedTasks (snd (iteration env heap tasks d task c s))).
Proof.
  destruct s as [sd sp sf st sn sw sr]. unfold Operations.persisted. simpl.
  intros H. unfold_service. split_tests; in_step H.
Qed.

Lemma loop_in_step (tasks : list ref) (d : Z) (rest : list ref) :
  forall (c : nat) (s : State),
    (forall x, Operations.persisted x s = Set_has x (printedTasks s)) ->
    forall x,
      Operations.persisted x (snd (loop env heap tasks d rest c s))
      = Set_has x (printedTasks (snd (loop env heap tasks d rest c s))).
Proof.
  induction rest as [|task rest IH]; intros c s H; simpl; [exact H|].
  pose proof (iteration_in_step tasks d task c s H) as H1.
  destruct (iteration env heap tasks d task c s) as [c1 s1]. now apply IH.
Qed.

Lemma run_in_step (op : Operations.Op) (s : State) :
  Operations.isPrintTest op = false ->
  (forall x, Operations.persisted x s = Set_has x (printedTasks s)) ->
  forall x,
    Operations.persisted x (Operations.run env heap op s)
    = Set_has x (printedTasks (Operations.run env heap op s)).
Proof.
  intros Htest H. destruct op; try discriminate; simpl; try now apply loop_in_step.
  all: destruct s as [sd sp sf st sn sw sr]; unfold Operations.persisted in *;
    simpl in *; unfold_service.
  - destruct sf as [[ids|msg]|]; simpl; split_tests; try in_step H.
    intros x. rewrite fold_Set_add_has, (H x). now destruct (Set_has x sp).
  - split_tests; in_step H.
  - split_tests; in_step H.
  - split_tests; in_step H.
  - split_tests; in_step H.
Qed.

Lemma runAll_in_step (ops : list Operations.Op) :
  forall s : State,
    forallb (fun op => negb (Operations.isPrintTest op)) ops = true ->
    (forall x, Operations.persisted x s = Set_has x (printedTasks s)) ->
    forall x,
      Operations.persisted x (Operations.runAll env heap ops s)
      = Set_has x (printedTasks (Operations.runAll env heap ops s)).
Proof.
  induction ops as [|op ops IH]; intros s Htest H; simpl; [exact H|].
  simpl in Htest. apply andb_true_iff in Htest as [Hop Hops].
  apply negb_true_iff in Hop. apply IH; [assumption|]. now apply run_in_step.
Qed.

Lemma new_in_step (dry : bool) (s : State) :
  readFileSync env (fileReads s) = None ->
  forall x, Set_has x (printedTasks (new env dry s)) = Operations.persisted x s.
Proof.
  destruct s as [sd sp sf st sn sw sr]. unfold Operations.persisted. simpl.
  intros Hr x. unfold new. unfold_service.
  destruct sf as [[ids|msg]|]; simpl; rewrite ?Hr; simpl; try reflexivity.
  now rewrite fold_Set_add_has.
Qed.
End InStep.

(** X11.  With a disk that accepts every write, any sequence of operations
    without [printTest] ([clearCache] included) that starts with the file
    and the in-memory set holding the same ids ends with them holding the
    same ids; a service constructed afterwards, its read succeeding, then
    starts with exactly the ids the old one held. *)
Theorem cache_file_in_step :
  forall (env : Env) (heap : ref -> FormattedTask.t)
         (ops : list Operations.Op) (s : State),
    (forall n, writeFileSync env n = None) ->
    forallb (fun op => negb (Operations.isPrintTest op)) ops = true ->
    (forall x, Operations.persisted x s = isAlreadyPrinted x s) ->
    let s' := Operations.runAll env heap ops s in
    (forall x, Operations.persisted x s' = isAlreadyPrinted x s')
    /\ (readFileSync env (fileReads s') = None ->
        forall dry x, isAlreadyPrinted x (new env dry s') = isAlreadyPrinted x s').
Proof.
  intros env heap ops s Hw Htest Hstep s'.
  assert (H : forall x, Operations.persisted x s' = isAlreadyPrinted x s')
    by now apply runAll_in_step.
  split; [exact H|].
  intros Hr dry x. unfold isAlreadyPrinted. rewrite (new_in_step env dry s' Hr).
  apply H.
Qed.

Lemma cache_file_in_step_witness :
  let s' := Operations.runAll Examples.printerOff Examples.heap
              [Operations.PrintTasks [1; 2] 1000; Operations.MarkPrinted "T9";
               Operations.ClearCache; Operations.MarkPrinted "T4"]
              (Examples.withCache false ["T1"]) in
  Operations.persisted "T4" s' = isAlreadyPrinted "T4" s'.
Proof.
  intros s'.
  refine (proj1 (cache_file_in_step Examples.printerOff Examples.heap _
                   (Examples.withCache false ["T1"]) _ _ _) "T4").
  - reflexivity.
  - reflexivity.
  - reflexivity.
Defined.
